(** * sift / BIAS: [Parameters.py]

    A shallow embedding of [src/pkg/sift/Parameters.py]: the two spectral
    brightness functions [d_b] and [classical_tsz], and the methods of the class
    [Parameters] that build the CMB, kSZ and tSZ maps and the fiducial parameter
    file.

    Numbers.  Python's [float] and numpy's [float64] are IEEE-754 binary64;
    they are Rocq's primitive floats, whose [+ - * /] are the same operations
    bit for bit.  What the program takes from libm and numpy ([exp], [pow],
    [mean]) is a parameter ([Numpy]).  The two brightness formulas are written
    once, over an arithmetic interface [Num], so that the same text can also be
    read in exact real arithmetic.

    Effects.  The methods run in a monad [M] that threads the state of
    numpy's global random generator, stops at the first exception the code
    itself can raise ([IndexError], [ValueError], [ZeroDivisionError],
    [OverflowError]) and records the calls made to the stochastic
    collaborators.  What [Parameters.py] imports ([camb], [flatsky], [tools],
    [inpaint], [fsolve], [np.random]) is a parameter ([Env]); the model follows
    the runs in which these return.  [realizations] is a count, a natural
    number.  [np.save] and the look-up of the repository are not modelled:
    [create_parameter_file] returns the matrix it hands to [np.save].
    [ext/SZpack.py] forwards to a native extension, which is a parameter
    ([SiftExt]). *)

From Stdlib Require Import ZArith List Bool Lia Floats Reals Lra.
From stdpp Require Import base list.
Import ListNotations.

Set Warnings "-inexact-float".

(* ================================================================== *)
(** * The arithmetic interface *)
(* ================================================================== *)

(** The arithmetic the formulas are written in.  [ndiv] is numpy's division
    (it never raises: [x / 0] is an infinity or a NaN); [py_pow] is Python's
    [float.__pow__] and [np_pow] numpy's [power], both at a literal positive
    exponent; [dec m e] is the literal [m * 10^e] (an integer for [e = 0],
    converted as Python converts an [int] operand of a float operation). *)
Class Num (A : Type) : Type := {
  nadd : A -> A -> A;
  nsub : A -> A -> A;
  nmul : A -> A -> A;
  ndiv : A -> A -> A;
  py_pow : A -> positive -> A;
  np_pow : A -> positive -> A;
  nexp : A -> A;
  dec : Z -> Z -> A
}.

Declare Scope num_scope.
Delimit Scope num_scope with num.
Infix "+" := nadd : num_scope.
Infix "-" := nsub : num_scope.
Infix "*" := nmul : num_scope.
Infix "/" := ndiv : num_scope.
Notation "x ** n" := (np_pow x n%positive)
  (at level 30, right associativity) : num_scope.
Notation "x ^^ n" := (py_pow x n%positive)
  (at level 30, right associativity) : num_scope.

(** ** binary64 *)

(** What the program calls in libm and numpy.  [np_power] and [py_power] are
    C's [pow] as numpy and as Python reach it; [np_mean] is [np.mean] of a
    two-dimensional array (numpy fixes the order of the additions);
    [np_linspace] is [np.linspace]. *)
Class Numpy : Type := {
  np_exp : float -> float;
  np_power : float -> float -> float;
  py_power : float -> float -> float;
  np_mean : list (list float) -> float;
  np_linspace : float -> float -> Z -> list float
}.

(** A decimal literal, rounded to the nearest binary64 as Python's parser
    rounds it (one rounding of the exact rational). *)
Definition float_of_dec (m e : Z) : float :=
  SF2Prim
    match e with
    | Zneg p =>
        match m with
        | Z0 => S754_zero false
        | Zpos a =>
            let '(q, e', l) :=
              SFdiv_core_binary prec emax (Zpos a) 0 (Z.pow_pos 10 p) 0 in
            binary_round_aux prec emax false q e' l
        | Zneg a =>
            let '(q, e', l) :=
              SFdiv_core_binary prec emax (Zpos a) 0 (Z.pow_pos 10 p) 0 in
            binary_round_aux prec emax true q e' l
        end
    | _ => binary_normalize prec emax (m * 10 ^ e) 0 false
    end.

#[export] Instance F64 {lib : Numpy} : Num float := {
  nadd := PrimFloat.add;
  nsub := PrimFloat.sub;
  nmul := PrimFloat.mul;
  ndiv := PrimFloat.div;
  py_pow x n := py_power x (float_of_dec (Zpos n) 0);
  np_pow x n := np_power x (float_of_dec (Zpos n) 0);
  nexp := np_exp;
  dec := float_of_dec
}.

(** ** Exact arithmetic *)

Definition real_of_dec (m e : Z) : R := (IZR m * powerRZ 10 e)%R.

#[export] Instance Exact : Num R := {
  nadd := Rplus;
  nsub := Rminus;
  nmul := Rmult;
  ndiv := Rdiv;
  py_pow x n := pow x (Pos.to_nat n);
  np_pow x n := pow x (Pos.to_nat n);
  nexp := exp;
  dec := real_of_dec
}.

(* ================================================================== *)
(** * Constants and the two brightness functions *)
(* ================================================================== *)

Section SpectralPhysics.
Context {A : Type} {N : Num A}.
Local Open Scope num_scope.

(** [c = 299792458.0], [h_p = 6.626068e-34], [k_b = 1.38065e-23],
    [TCMB = 2.725]. *)
Definition c : A := dec 299792458 0.
Definition h_p : A := dec 6626068 (-40).
Definition k_b : A := dec 138065 (-28).
Definition TCMB : A := dec 2725 (-3).

(** The factor of [d_b] that multiplies [dt] last:
    [I * (x ** 4 * np.exp(x) / ((np.exp(x) - 1) ** 2)) / temp]. *)
Definition d_b_factor (dt frequency : A) : A :=
  let temp := TCMB / (dec 1 0 + dt) in
  let x := (h_p / (k_b * temp)) * frequency in
  let I := ((dec 2 0 * h_p) / (c ^^ 2)) * (k_b * temp / h_p) ** 3 in
  I * (x ** 4 * nexp x / ((nexp x - dec 1 0) ** 2)) / temp.

(** [d_b(dt, frequency)]; Python reads [a * b / t * dt] as
    [((a * b) / t) * dt]. *)
Definition d_b (dt frequency : A) : A :=
  d_b_factor dt frequency * dt.

(** [x_b] and [bv] of [classical_tsz]. *)
Definition x_b (frequency : A) : A := (h_p / (k_b * TCMB)) * frequency.

Definition bv (frequency : A) : A :=
  dec 2 0 * k_b * TCMB * ((frequency ** 2) / (c ^^ 2))
  * (x_b frequency / (nexp (x_b frequency) - dec 1 0)).

Definition classical_tsz (y frequency : A) : A :=
  let x_b := x_b frequency in
  y * ((x_b * nexp x_b) / (nexp x_b - dec 1 0))
    * (x_b * ((nexp x_b + dec 1 0) / (nexp x_b - dec 1 0)) - dec 4 0)
    * bv frequency.
End SpectralPhysics.

(* ================================================================== *)
(** * The Python and numpy runtime the methods rely on *)
(* ================================================================== *)

(** The exceptions the modelled code can raise. *)
Inductive exn : Type :=
| IndexError
| ValueError
| ZeroDivisionError
| OverflowError.

Inductive Res (X : Type) : Type :=
| Ok (x : X)
| Raise (e : exn).
Arguments Ok {X} x.
Arguments Raise {X} e.

Definition res_bind {X Y : Type} (r : Res X) (f : X -> Res Y) : Res Y :=
  match r with
  | Ok x => f x
  | Raise e => Raise e
  end.

(** Two- and three-dimensional arrays of [float64], row by row. *)
Abbreviation Arr2 := (list (list float)).
Abbreviation Arr3 := (list (list (list float))).

Section Runtime.
Local Open Scope Z_scope.

(** [int64] arithmetic of [np.arange] arrays wraps around. *)
Definition wrap64 (z : Z) : Z := (z + 2 ^ 63) mod 2 ^ 64 - 2 ^ 63.

(** [a / b] on two Python floats. *)
Definition py_div (a b : float) : Res float :=
  if PrimFloat.eqb b 0 then Raise ZeroDivisionError else Ok (a / b)%float.

(** [int(x)]: truncation towards zero. *)
Definition py_int (x : float) : Res Z :=
  match Prim2SF x with
  | S754_nan => Raise ValueError
  | S754_infinity _ => Raise OverflowError
  | S754_zero _ => Ok 0
  | S754_finite s m e =>
      Ok (cond_Zopp s
            match e with
            | Zneg k => Z.shiftr (Zpos m) (Zpos k)
            | _ => Z.shiftl (Zpos m) e
            end)
  end.

(** An integer index into an axis of length [n]: negative indices count
    from the end, anything else out of range raises. *)
Definition np_index (n : nat) (i : Z) : Res nat :=
  if (0 <=? i) && (i <? Z.of_nat n) then Ok (Z.to_nat i)
  else if (- Z.of_nat n <=? i) && (i <? 0) then Ok (Z.to_nat (Z.of_nat n + i))
  else Raise IndexError.

Definition getitem {X : Type} (l : list X) (i : Z) : Res X :=
  res_bind (np_index (length l) i) (fun n =>
    match l !! n with
    | Some x => Ok x
    | None => Raise IndexError
    end).

Definition setitem {X : Type} (l : list X) (i : Z) (x : X) : Res (list X) :=
  res_bind (np_index (length l) i) (fun n => Ok (<[n := x]> l)).

(** [a[i, j]] and [a[i][j]] on a two-dimensional array. *)
Definition getitem2 (a : Arr2) (i j : Z) : Res float :=
  res_bind (getitem a i) (fun row => getitem row j).

(** [a[i][j] = v]: [a[i]] is a view of row [i]. *)
Definition setitem2 (a : Arr2) (i j : Z) (v : float) : Res Arr2 :=
  res_bind (getitem a i) (fun row =>
  res_bind (setitem row j v) (fun row' =>
  setitem a i row')).

(** A bound of a slice [lo:hi] on an axis of length [n]. *)
Definition slice_bound (n : nat) (i : Z) : nat :=
  if i <? 0 then Z.to_nat (Z.max (i + Z.of_nat n) 0)
  else Nat.min (Z.to_nat i) n.

(** [l[lo:hi]] *)
Definition np_slice {X : Type} (l : list X) (lo hi : Z) : list X :=
  let a := slice_bound (length l) lo in
  let b := slice_bound (length l) hi in
  take (b - a)%nat (drop a l).

(** [a[r0:r1, c0:c1]] *)
Definition slice2 (a : Arr2) (r0 r1 c0 c1 : Z) : Arr2 :=
  map (fun row => np_slice row c0 c1) (np_slice a r0 r1).

(** [rows] rows of [w] entries each, read off a flat list. *)
Fixpoint chunks {X : Type} (rows w : nat) (l : list X) : list (list X) :=
  match rows with
  | O => []
  | S r => take w l :: chunks r w (drop w l)
  end.

(** [np.asarray([g]).reshape(nx, nx)] *)
Definition reshape (nx : Z) (g : Arr2) : Res Arr2 :=
  let flat := concat g in
  if (0 <=? nx) && (Z.of_nat (length flat) =? nx * nx)
  then Ok (chunks (Z.to_nat nx) (Z.to_nat nx) flat)
  else Raise ValueError.

(** Elementwise operations on arrays of one shape. *)
Definition arr2_map (f : float -> float) (a : Arr2) : Arr2 := map (map f) a.

Definition arr2_zip (f : float -> float -> float) (a b : Arr2) : Arr2 :=
  zip_with (zip_with f) a b.

Definition arr3_add (a b : Arr3) : Arr3 := zip_with (arr2_zip PrimFloat.add) a b.

(** [np.asarray(l).flatten()] for a list of two-dimensional arrays. *)
Definition flatten (l : list Arr2) : list float := concat (concat l).

(** [np.arange(n)] and [range(n)] *)
Definition arange (n : Z) : list Z := map Z.of_nat (seq 0 (Z.to_nat n)).

(** [np.meshgrid(ra, dec)] *)
Definition meshgrid (ra dec : list float) : Arr2 * Arr2 :=
  (map (fun _ => ra) dec, map (fun d => map (fun _ => d) ra) dec).
End Runtime.

Notation "'let?' x := r 'in' k" := (res_bind r (fun x => k))
  (at level 10, x name, r at level 100, k at level 200, only parsing).

(** [for x in l: s = body(x, s)], the first exception ends the loop. *)
Fixpoint res_fold {X S : Type} (body : X -> S -> Res S) (l : list X) (s : S)
  : Res S :=
  match l with
  | [] => Ok s
  | x :: l' => let? s' := body x s in res_fold body l' s'
  end.

(* ================================================================== *)
(** * The collaborators *)
(* ================================================================== *)

(** [mapparams = [nx, nx, dx, dx]] *)
Definition MapParams : Type := (Z * Z * float * float)%type.

(** The keyword arguments [get_covariance] and [inpainting] share. *)
Record InpaintArgs (Beam Filter : Type) : Type := {
  ra_grid : Arr2;
  dec_grid : Arr2;
  mapparams : MapParams;
  el : list Z;
  cl_dic : list float;
  bl : Beam;
  lpf : Filter;
  nl_dic : list float;
  mask_radius_inner : Z;
  mask_radius_outer : Z;
  low_pass_cutoff : Z
}.
Arguments ra_grid {Beam Filter} _.
Arguments dec_grid {Beam Filter} _.
Arguments mapparams {Beam Filter} _.
Arguments el {Beam Filter} _.
Arguments cl_dic {Beam Filter} _.
Arguments bl {Beam Filter} _.
Arguments lpf {Beam Filter} _.
Arguments nl_dic {Beam Filter} _.

(** What [Parameters.py] imports and does not define: numpy's global random
    generator, CAMB, [flatsky], [tools], [inpaint] and scipy's [fsolve].  The
    generator's state [RNG] is the only hidden input of a stochastic
    collaborator, which is a function of it and returns the state it leaves.
    [inpainting] is handed the array object [sim_map]; beside its three maps
    it returns what that object holds after the call. *)
Class Env : Type := {
  RNG : Type;
  np_random_seed : Z -> RNG;
  np_random_randint : Z -> Z -> RNG -> Z * RNG;
  camb_total_TT : list float;
  Beam : Type;
  Filter : Type;
  Sigma : Type;
  get_bl : float -> list Z -> Z -> MapParams -> Beam;
  get_nl : float -> list Z -> list float;
  get_lpf_hpf : MapParams -> Z -> Z -> Filter;
  make_gaussian_realisation :
    MapParams -> list Z -> list float -> option Beam -> RNG -> Arr2 * RNG;
  get_covariance : InpaintArgs Beam Filter -> Z -> RNG -> Sigma * RNG;
  inpainting :
    Arr3 -> InpaintArgs Beam Filter -> Sigma -> RNG ->
    (Arr2 * Arr2 * Arr2) * Arr3 * RNG;
  fsolve : (float -> float) -> float -> float
}.

(** ** The monad of the methods: generator state, exceptions, and the calls
    made to the stochastic collaborators *)

(** A record of one call: what was passed and what came back. *)
Inductive Event : Type :=
| EvGaussian (cl : list float) (beam : bool) (out : Arr2)
| EvCovariance
| EvInpainting (sim_map : Arr3) (out : Arr2 * Arr2 * Arr2).

Section Monad.
Context {env : Env}.

Record Out (X : Type) : Type := mkOut {
  result : Res X;
  rng_after : RNG;
  events : list Event
}.
Arguments mkOut {X} _ _ _.
Arguments result {X} _.
Arguments rng_after {X} _.
Arguments events {X} _.

Definition M (X : Type) : Type := RNG -> Out X.

Definition ret {X : Type} (x : X) : M X := fun s => mkOut (Ok x) s [].

Definition bind {X Y : Type} (m : M X) (f : X -> M Y) : M Y :=
  fun s =>
    let o := m s in
    match result o with
    | Ok x =>
        let o' := f x (rng_after o) in
        mkOut (result o') (rng_after o') (events o ++ events o')
    | Raise e => mkOut (Raise e) (rng_after o) (events o)
    end.

Definition lift {X : Type} (r : Res X) : M X := fun s => mkOut r s [].

(** [np.random.seed(seed)] *)
Definition seed_rng (seed : Z) : M unit :=
  fun _ => mkOut (Ok tt) (np_random_seed seed) [].

(** [np.random.randint(low=.., high=..)] *)
Definition randint (low high : Z) : M Z :=
  fun s => let '(z, s') := np_random_randint low high s in mkOut (Ok z) s' [].

Definition call_gaussian (mp : MapParams) (el : list Z) (cl : list float)
    (bl : option Beam) : M Arr2 :=
  fun s =>
    let '(g, s') := make_gaussian_realisation mp el cl bl s in
    mkOut (Ok g) s' [EvGaussian cl (match bl with Some _ => true | None => false end) g].

Definition call_covariance (a : InpaintArgs Beam Filter) (noofsims : Z)
  : M Sigma :=
  fun s =>
    let '(sg, s') := get_covariance a noofsims s in
    mkOut (Ok sg) s' [EvCovariance].

(** The call returns the three maps and the contents of [sim_map] after it. *)
Definition call_inpainting (sim_map : Arr3) (a : InpaintArgs Beam Filter)
    (sg : Sigma) : M ((Arr2 * Arr2 * Arr2) * Arr3) :=
  fun s =>
    let '(out, sim_map', s') := inpainting sim_map a sg s in
    mkOut (Ok (out, sim_map')) s' [EvInpainting sim_map out].
End Monad.
Arguments mkOut {env X} _ _ _.
Arguments result {env X} _.
Arguments rng_after {env X} _.
Arguments events {env X} _.

Notation "'let*' x := m 'in' k" := (bind m (fun x => k))
  (at level 10, x name, m at level 100, k at level 200, only parsing).
Notation "'let*' ' pat := m 'in' k" :=
  (bind m (fun x => match x with pat => k end))
  (at level 10, pat pattern, m at level 100, k at level 200, only parsing).

(** [for x in l: s = body(x, s)] in [M]. *)
Fixpoint m_fold {env : Env} {X S : Type} (body : X -> S -> M S) (l : list X)
    (s : S) : M S :=
  match l with
  | [] => ret s
  | x :: l' => let* s' := body x s in m_fold body l' s'
  end.

(* ================================================================== *)
(** * The class [Parameters] *)
(* ================================================================== *)

Section Parameters.
Context {lib : Numpy} {env : Env}.
Local Open Scope float_scope.

(** [np.pi] *)
Definition np_pi : float := 3.141592653589793.

(** [int(boxsize_am / dx)] *)
Definition box_pixels (boxsize_am dx : float) : Res Z :=
  let? q := py_div boxsize_am dx in py_int q.

(** [np.linspace(x1, x2, nx)]; a negative count is refused. *)
Definition linspace (x1 x2 : float) (nx : Z) : Res (list float) :=
  if (nx <? 0)%Z then Raise ValueError else Ok (np_linspace x1 x2 nx).

(** [dl_fac = el * (el + 1) / 2 / np.pi]: the product is taken in [int64],
    the quotients in [float64]. *)
Definition dl_fac (el : list Z) : list float :=
  map (fun l => float_of_dec (wrap64 (l * wrap64 (l + 1))) 0 / 2 / np_pi) el.

(** The conversion of lines 79-83, 153-157 and 185-189:
    [dl_tt[0] = 0], then
    [cl_tt = (TCMB ** 2. * dl_tt * 1e12) / dl_fac] elementwise. *)
Definition cl_of_dl (dl_tt : list float) (el : list Z) : Res (list float) :=
  let? dl_tt := setitem dl_tt 0 0 in
  Ok (zip_with (fun d f => (py_pow TCMB 2 * d * 1e12) / f) dl_tt (dl_fac el)).

(** The body of the loop of [create_cmb_map] (lines 124-138). *)
Definition inpaint_step (a : InpaintArgs Beam Filter) (sigma_dic : Sigma)
    (i : nat) (st : list Arr2 * Arr3) : M (list Arr2 * Arr3) :=
  let '(cmb_anis, sim_map) := st in
  let* '((cmb_inpainted_map, sim_map_inpainted, sim_map_filtered), sim_map') :=
    call_inpainting sim_map a sigma_dic in
  ret (cmb_anis ++ [arr2_zip PrimFloat.sub
                      (slice2 sim_map_filtered 33 34 33 34)
                      (slice2 sim_map_inpainted 33 34 33 34)],
       sim_map').

Definition create_cmb_map (angular_resolution : float) (realizations : nat)
    (seed : Z) : M (list float) :=
  let* _ := seed_rng seed in
  let totCL_TT := camb_total_TT in
  let el := arange (Z.of_nat (length totCL_TT)) in
  let* cl_tt := lift (cl_of_dl totCL_TT el) in
  let dx := angular_resolution in
  let* nx := lift (box_pixels 200 dx) in
  let mapparams := (nx, nx, dx, dx) in
  let x1 := float_of_dec (- nx) 0 / 2 * dx in
  let x2 := float_of_dec nx 0 / 2 * dx in
  let noiseval := 1 in
  let beamval := angular_resolution in
  let bl := get_bl beamval el 1 mapparams in
  let noofsims := 1000%Z in
  let* ra := lift (linspace x1 x2 nx) in
  let* dec := lift (linspace x1 x2 nx) in
  let '(ra_grid, dec_grid) := meshgrid ra dec in
  let nl := get_nl noiseval el in
  let lpf := get_lpf_hpf mapparams 3000 0 in
  let* cmb_map := call_gaussian mapparams el cl_tt (Some bl) in
  let* noise_map := call_gaussian mapparams el nl None in
  let sim_map := arr3_add [cmb_map] [noise_map] in
  let a := {| ra_grid := ra_grid; dec_grid := dec_grid;
              mapparams := mapparams; el := el; cl_dic := cl_tt; bl := bl;
              lpf := lpf; nl_dic := nl; mask_radius_inner := 8;
              mask_radius_outer := 60; low_pass_cutoff := 1 |} in
  let* sigma_dic := call_covariance a noofsims in
  let* '(cmb_anis, _) :=
    m_fold (inpaint_step a sigma_dic) (seq 0 realizations) ([], sim_map) in
  ret (map (fun v => v * 1e-6) (flatten cmb_anis)).

(** The flat spectrum [np.asanyarray([amp] * 5051)] of the kSZ and tSZ
    maps, converted. *)
Definition flat_cl (amp : float) : Res (list float) :=
  cl_of_dl (replicate (Z.to_nat 5051) amp) (arange 5051).

(** Lines 150-169 of [create_ksz_map] and 179-201 of [create_tsz_map] are
    one text but for the amplitude: the map in Kelvin, and its side [nx]. *)
Definition secondary_map (amp : float) (angular_resolution : float)
    (seed : Z) : M (Z * Arr2) :=
  let* _ := seed_rng seed in
  let el := arange 5051 in
  let* cl_tt := lift (flat_cl amp) in
  let dx := angular_resolution in
  let* nx := lift (box_pixels 3000 dx) in
  let mapparams := (nx, nx, dx, dx) in
  let beamval := angular_resolution in
  let bl := get_bl beamval el 1 mapparams in
  let* map := call_gaussian mapparams el cl_tt (Some bl) in
  let* map_T := lift (reshape nx map) in
  ret (nx, arr2_map (fun v => v * 1e-6) map_T).

Definition create_ksz_map (angular_resolution : float) (seed : Z) : M Arr2 :=
  let* '(_, KSZ_T) := secondary_map 3e-12 angular_resolution seed in
  ret KSZ_T.

(** [func(y_value, dt)] of [create_tsz_map]. *)
Definition func (frequency : float) (y_value dt : float) : float :=
  classical_tsz y_value frequency - d_b dt frequency.

(** [TSZ_Y[i][k] = fsolve(func, np.asanyarray([0]), args=[TSZ_T[i][k]])] *)
Definition solve_pixel (frequency : float) (TSZ_T : Arr2) (i k : Z)
    (TSZ_Y : Arr2) : Res Arr2 :=
  let? dt := getitem2 TSZ_T i k in
  setitem2 TSZ_Y i k (fsolve (fun y => func frequency y dt) 0).

(** Lines 202-209: [TSZ_Y = np.copy(TSZ_T)] and the two loops. *)
Definition compton_y (frequency : float) (nx : Z) (TSZ_T : Arr2) : Res Arr2 :=
  let TSZ_Y := TSZ_T in
  res_fold (fun i TSZ_Y =>
              res_fold (fun k TSZ_Y => solve_pixel frequency TSZ_T i k TSZ_Y)
                       (arange nx) TSZ_Y)
           (arange nx) TSZ_Y.

Definition create_tsz_map (angular_resolution : float) (seed : Z) : M Arr2 :=
  let frequency := 143e9 in
  let* '(nx, TSZ_T) := secondary_map 3.42e-12 angular_resolution seed in
  lift (compton_y frequency nx TSZ_T).

(** Lines 244-250: the row of one realization, from its four draws. *)
Definition background_subtracted (map : Arr2) (long lat : Z) : Res float :=
  let? amp := getitem2 map long lat in
  Ok (amp - np_mean (slice2 map (long - 2) (long + 3) (lat - 2) (lat + 3))).

Definition parameter_row (amp_cmb : list float) (ksz_map tsz_map : Arr2)
    (i : nat) (sides_long sides_lat long lat : Z) : Res (list float) :=
  let? amp_ksz := background_subtracted ksz_map long lat in
  let? amp_tsz := background_subtracted tsz_map long lat in
  let? a := getitem amp_cmb (Z.of_nat i) in
  Ok [float_of_dec sides_long 0; float_of_dec sides_lat 0; a; amp_ksz; amp_tsz].

(** The body of the loop of [create_parameter_file] (lines 232-251). *)
Definition realization (amp_cmb : list float) (ksz_map tsz_map : Arr2)
    (i : nat) (params : list (list float)) : M (list (list float)) :=
  let* sides_long := randint 0 160 in
  let* sides_lat := randint 0 160 in
  let* long := randint 2 998 in
  let* lat := randint 2 998 in
  let* params_realization :=
    lift (parameter_row amp_cmb ksz_map tsz_map i sides_long sides_lat long lat) in
  ret (params ++ [params_realization]).

(** [create_parameter_file]; the value is the matrix handed to [np.save]. *)
Definition create_parameter_file (angular_resolution : float)
    (realizations : nat) : M (list (list float)) :=
  let params := [[0; 0; 0; 0; 0]] in
  let* amp_cmb := create_cmb_map angular_resolution realizations 40 in
  let* ksz_map := create_ksz_map angular_resolution 40 in
  let* tsz_map := create_tsz_map angular_resolution 40 in
  let* params :=
    m_fold (realization amp_cmb ksz_map tsz_map) (seq 0 realizations) params in
  ret (drop 1 params).
End Parameters.

(* ================================================================== *)
(** * [ext/SZpack.py] *)
(* ================================================================== *)

(** The native routine [sift.ext.sift.szpack_combo_means], by its keyword
    arguments in the order of the call: [xo], [tau], [TeSZ], [betac_para],
    [omega], [sigma], [kappa], [betac2_perp]. *)
Class SiftExt : Type := {
  Xo : Type;
  Means : Type;
  szpack_combo_means :
    Xo -> float -> float -> float -> float -> float -> float -> float -> Means
}.

Module SZpack.
(** The attributes [__init__] sets. *)
Record t : Type := {
  tau : float;
  TeSZ : float;
  betac_para : float;
  omega : float;
  sigma : float;
  kappa : float;
  betac2_perp : float
}.

(** [SZpack(tau, temperature, peculiar_velocity, omega=0, sigma=0, kappa=0,
    betac2_perp=0)]; [None] is an argument left out. *)
Definition init (tau temperature peculiar_velocity : float)
    (omega sigma kappa betac2_perp : option float) : t :=
  {| tau := tau;
     TeSZ := temperature;
     betac_para := peculiar_velocity;
     omega := default 0%float omega;
     sigma := default 0%float sigma;
     kappa := default 0%float kappa;
     betac2_perp := default 0%float betac2_perp |}.

(** [self.sz_combo_means(xo)] *)
Definition sz_combo_means {ext : SiftExt} (self : t) (xo : Xo) : Means :=
  szpack_combo_means xo (tau self) (TeSZ self) (betac_para self) (omega self)
    (sigma self) (kappa self) (betac2_perp self).
End SZpack.

(* ================================================================== *)
(** * Specification vocabulary *)
(* ================================================================== *)

(** [np.exp] overflows to [inf] from 710 on (the largest binary64 is below
    [e^710]). *)
Definition exp_overflows (lib : Numpy) : Prop :=
  forall x : float, (710 <=? x)%float = true -> np_exp x = infinity.

(** A value that is a NaN or an infinity. *)
Definition nan_or_inf (x : float) : Prop :=
  match Prim2SF x with
  | S754_nan | S754_infinity _ => True
  | _ => False
  end.

(** [y] solves [f(y) = 0] within the tolerance [tol]. *)
Definition root_within (tol : float) (f : float -> float) (y : float) : bool :=
  (abs (f y) <=? tol)%float.

(** The spec's words for C6, in exact arithmetic: [x_b = (h nu)/(k_B T_CMB)]
    and the blackbody intensity [B_nu = 2 h nu^3 / c^2 / (e^{x_b} - 1)]. *)
Definition x_b_spec (nu : R) : R := ((h_p * nu) / (k_b * TCMB))%R.

Definition B_nu (nu : R) : R :=
  (2 * h_p * nu ^ 3 / c ^ 2 / (exp (x_b_spec nu) - 1))%R.

(** The same words in any arithmetic, evaluated from left to right as Python
    evaluates the text: [x_b = (h * nu) / (k_B * T_CMB)],
    [B_nu = 2 * h * nu^3 / c^2 / (e^{x_b} - 1)], and
    [y * [x_b * e^{x_b} / (e^{x_b} - 1)] * [x_b * (e^{x_b} + 1) / (e^{x_b} - 1) - 4] * B_nu]. *)
Section ClaimedFormula.
Context {A : Type} {N : Num A}.
Local Open Scope num_scope.

Definition x_b_words (nu : A) : A := (h_p * nu) / (k_b * TCMB).

Definition B_nu_words (nu : A) : A :=
  dec 2 0 * h_p * nu ^^ 3 / c ^^ 2 / (nexp (x_b_words nu) - dec 1 0).

Definition classical_tsz_words (y nu : A) : A :=
  let x_b := x_b_words nu in
  y * (x_b * nexp x_b / (nexp x_b - dec 1 0))
    * (x_b * (nexp x_b + dec 1 0) / (nexp x_b - dec 1 0) - dec 4 0)
    * B_nu_words nu.
End ClaimedFormula.

(** The maps a call of [inpainting] returned, and the maps it was handed, in
    the order of the calls. *)
Definition inpaint_outs (tr : list Event) : list (Arr2 * Arr2 * Arr2) :=
  omap (fun e => match e with EvInpainting _ out => Some out | _ => None end) tr.

Definition inpaint_inputs (tr : list Event) : list Arr3 :=
  omap (fun e => match e with EvInpainting m _ => Some m | _ => None end) tr.

(** [sim_map_filtered[33:34, 33:34] - sim_map_inpainted[33:34, 33:34]] of one
    call. *)
Definition central_diff (out : Arr2 * Arr2 * Arr2) : Arr2 :=
  let '(_, sim_map_inpainted, sim_map_filtered) := out in
  arr2_zip PrimFloat.sub (slice2 sim_map_filtered 33 34 33 34)
                         (slice2 sim_map_inpainted 33 34 33 34).

(** The inpainted and the filtered map of a call have a pixel (33, 33). *)
Definition has_centre (out : Arr2 * Arr2 * Arr2) : Prop :=
  let '(_, sim_map_inpainted, sim_map_filtered) := out in
  (exists p, getitem2 sim_map_inpainted 33 33 = Ok p)
  /\ (exists f, getitem2 sim_map_filtered 33 33 = Ok f).

(** [v] is the central pixel of the filtered map of [out] minus the central
    pixel of its inpainted map, scaled by [1e-6]. *)
Definition centre_estimate (out : Arr2 * Arr2 * Arr2) (v : float) : Prop :=
  let '(_, sim_map_inpainted, sim_map_filtered) := out in
  exists p f,
    getitem2 sim_map_inpainted 33 33 = Ok p
    /\ getitem2 sim_map_filtered 33 33 = Ok f
    /\ v = ((f - p) * 1e-6)%float.

(** The map of [n] by [n] pixels that are all [v]. *)
Definition constant_map (n : Z) (v : float) : Arr2 :=
  replicate (Z.to_nat n) (replicate (Z.to_nat n) v).

(** A computation that returns [x], leaves the generator in [s'] and makes
    the calls [tr]. *)
Definition returns {env : Env} {X : Type} (m : M X) (s : RNG) (x : X)
    (s' : RNG) (tr : list Event) : Prop :=
  m s = mkOut (Ok x) s' tr.

(** An array of [n] rows of [n] entries. *)
Definition square (n : nat) (a : Arr2) : Prop :=
  length a = n /\ Forall (fun row => length row = n) a.

(** [g] applied to the first [m] entries of [l]. *)
Definition done_upto {X : Type} (g : X -> X) (m : nat) (l : list X) : list X :=
  map g (take m l) ++ drop m l.

(** What [fsolve] returns for the equation of a pixel whose temperature is
    [dt], started at [y = 0]. *)
Definition solved_pixel {lib : Numpy} {env : Env} (frequency dt : float) : float :=
  fsolve (fun y => func frequency y dt) 0%float.

(** Some draw of [(long, lat)] from [[2, 998)] indexes past the end of the
    map. *)
Definition some_draw_out_of_bounds (map : Arr2) : Prop :=
  exists long lat : Z,
    (2 <= long < 998)%Z /\ (2 <= lat < 998)%Z
    /\ getitem2 map long lat = Raise IndexError.

(** Every draw of [(long, lat)] from [[2, 998)] is a pixel of the map. *)
Definition every_draw_in_bounds (map : Arr2) : Prop :=
  forall long lat : Z,
    (2 <= long < 998)%Z -> (2 <= lat < 998)%Z ->
    exists v, getitem2 map long lat = Ok v.

(** The row of realization [i] comes from four draws within their bounds. *)
Definition row_drawn {lib : Numpy} (amp_cmb : list float) (ksz_map tsz_map : Arr2)
    (i : nat) (row : list float) : Prop :=
  exists sides_long sides_lat long lat : Z,
    (0 <= sides_long < 160)%Z /\ (0 <= sides_lat < 160)%Z
    /\ (2 <= long < 998)%Z /\ (2 <= lat < 998)%Z
    /\ parameter_row amp_cmb ksz_map tsz_map i sides_long sides_lat long lat
       = Ok row.

(** The four draws of one realization (lines 235-241), in the order of the
    source, from the generator state [s]: the two catalog coordinates, the
    two map coordinates, and the state the draws leave. *)
Definition draws {env : Env} (s : RNG) : (Z * Z * Z * Z) * RNG :=
  let '(sides_long, s1) := np_random_randint 0 160 s in
  let '(sides_lat, s2) := np_random_randint 0 160 s1 in
  let '(long, s3) := np_random_randint 2 998 s2 in
  let '(lat, s4) := np_random_randint 2 998 s3 in
  ((sides_long, sides_lat, long, lat), s4).

(** The generator state in which realization [j] of a loop that starts in
    the state [s] makes its draws. *)
Fixpoint draw_state {env : Env} (s : RNG) (j : nat) : RNG :=
  match j with
  | O => s
  | S j' => draw_state (snd (draws s)) j'
  end.

(** A catalog coordinate, as the matrix stores it. *)
Definition in_catalog (e : float) : bool := ((0 <=? e) && (e <? 160))%float.

(** Contracts of the collaborators, as the spec states them. *)

(** [randint(low, high)] draws from [[low, high)]. *)
Definition randint_in_range (env : Env) : Prop :=
  forall (low high : Z) (s : RNG),
    (low < high)%Z ->
    (low <= fst (np_random_randint low high s) < high)%Z.

(** The realization of [mapparams = [nx, nx, dx, dx]] has [nx * nx] pixels. *)
Definition gaussian_fills_grid (env : Env) : Prop :=
  forall (nx : Z) (dx : float) el cl bl (s : RNG),
    (0 <= nx)%Z ->
    Z.of_nat (length (concat (fst (make_gaussian_realisation (nx, nx, dx, dx) el cl bl s))))
    = (nx * nx)%Z.

(** [inpainting] only reads the map it is handed. *)
Definition inpainting_reads_only (env : Env) : Prop :=
  forall sim_map a sg (s : RNG),
    snd (fst (inpainting sim_map a sg s)) = sim_map.

(** The maps [inpainting] returns have a pixel (33, 33). *)
Definition inpainting_has_centre (env : Env) : Prop :=
  forall sim_map a sg (s : RNG),
    has_centre (fst (fst (inpainting sim_map a sg s))).

(** [fsolve] on the problems [(f, x0)] of [C], those on which it converges:
    what it returns solves [f(y) = 0] within the tolerance [tol]. *)
Definition fsolve_converges (env : Env) (tol : float)
    (C : (float -> float) -> float -> Prop) : Prop :=
  forall (f : float -> float) (x0 : float),
    C f x0 -> root_within tol f (fsolve f x0) = true.


(** [check z], [check (z + 1)], ... for [k] consecutive integers. *)
Fixpoint all_from (check : Z -> bool) (k : nat) (z : Z) : bool :=
  match k with
  | O => true
  | S k' => check z && all_from check k' (z + 1)
  end.

(* ================================================================== *)
(** * A small libm, numpy and set of collaborators to run the model on *)
(* ================================================================== *)

(** These stand in for the libraries on concrete inputs only; every theorem
    below is stated for any [Numpy] and any [Env]. *)

Definition ref_exp (x : float) : float :=
  if (710 <=? x)%float then infinity
  else
    let y := (x / 1024)%float in
    Nat.iter 10 (fun a => a * a)%float
      (fold_right (fun k acc => 1 + y / float_of_dec (Z.of_nat k) 0 * acc)%float
                  1%float (seq 1 30)).

Definition ref_pow (x y : float) : float :=
  match py_int y with
  | Ok (Zpos n) => Pos.iter (fun a => a * x)%float 1%float n
  | Ok Z0 => 1%float
  | _ => nan
  end.

Definition ref_mean (a : Arr2) : float :=
  (fold_left PrimFloat.add (concat a) 0
   / float_of_dec (Z.of_nat (length (concat a))) 0)%float.

Definition ref_linspace (x1 x2 : float) (n : Z) : list float :=
  map (fun i => x1 + float_of_dec i 0 * ((x2 - x1) / float_of_dec (n - 1) 0))%float
      (arange n).

Definition ref_numpy : Numpy := {|
  np_exp := ref_exp;
  np_power := ref_pow;
  py_power := ref_pow;
  np_mean := ref_mean;
  np_linspace := ref_linspace
|}.

(** One step of the secant method from [x0] and [x0 + 1]: exact on an affine
    function up to rounding. *)
Definition ref_fsolve (f : float -> float) (x0 : float) : float :=
  if (f x0 =? 0)%float then x0
  else (x0 - f x0 / (f (x0 + 1) - f x0))%float.

(** The generator state is a counter; [randint] reads it off modulo the
    width of the range; a map is [nx] by [nx]; [inpainting] returns maps of
    34 by 34 pixels and leaves its input alone. *)
Definition ref_env : Env := {|
  RNG := Z;
  np_random_seed := fun seed => seed;
  np_random_randint := fun low high s => ((low + s mod (high - low))%Z, (s + 7)%Z);
  camb_total_TT := replicate 8 1e-10%float;
  Beam := unit;
  Filter := unit;
  Sigma := unit;
  get_bl := fun _ _ _ _ => tt;
  get_nl := fun noiseval el => map (fun _ => noiseval) el;
  get_lpf_hpf := fun _ _ _ => tt;
  make_gaussian_realisation := fun mp _ _ _ s =>
    (constant_map (fst (fst (fst mp))) (float_of_dec s 0), (s + 1)%Z);
  get_covariance := fun _ _ s => (tt, (s + 1)%Z);
  inpainting := fun sim_map _ _ s =>
    ((constant_map 34 0, constant_map 34 (float_of_dec s 0), constant_map 34 (float_of_dec (2 * s) 0)),
     sim_map, (s + 1)%Z);
  fsolve := ref_fsolve
|}.


(* ================================================================== *)
(** * The model on concrete inputs *)
(* ================================================================== *)

Section ConcreteRuns.
Local Open Scope float_scope.

(** The constants are the doubles Python reads off the source text. *)
Example constants_as_python_reads_them :
  (@c float (@F64 ref_numpy), @h_p float (@F64 ref_numpy),
   @k_b float (@F64 ref_numpy), @TCMB float (@F64 ref_numpy))
  = (299792458.0, 6.626068e-34, 1.38065e-23, 2.725).
Proof. reflexivity. Qed.

Example box_pixels_runs :
  box_pixels 200 3 = Ok 66%Z /\ box_pixels 3000 3 = Ok 1000%Z
  /\ box_pixels 3000 4 = Ok 750%Z /\ box_pixels 3000 0 = Raise ZeroDivisionError.
Proof. repeat split; reflexivity. Qed.

Example indexing_runs :
  getitem [10; 20; 30] (-1) = Ok 30 /\ getitem [10; 20; 30] 3 = Raise IndexError
  /\ np_slice [10; 20; 30] 1 10 = [20; 30] /\ np_slice [10; 20; 30] (-2) (-1) = [20]
  /\ slice2 [[1; 2]; [3; 4]] 33 34 33 34 = [].
Proof. repeat split; reflexivity. Qed.

(** [d_b] and [classical_tsz] at 143 GHz, and [d_b] where [np.exp]
    overflows, with the reference libm. *)
Example brightness_runs :
  (d_b (N := @F64 ref_numpy) 0 143e9 =? 0) = true
  /\ is_finite (classical_tsz (N := @F64 ref_numpy) 1e-5 143e9) = true
  /\ is_nan (d_b (N := @F64 ref_numpy) 0 1e14) = true.
Proof. repeat split; vm_compute; reflexivity. Qed.

(** Two realizations of [create_cmb_map] on the reference collaborators:
    the generator counts 40, 41, ..., and the two calls of [inpainting] see
    it at 43 and 44. *)
Example create_cmb_map_runs :
  result (create_cmb_map (lib := ref_numpy) (env := ref_env) 3 2 40 0%Z)
  = Ok [(86 - 43) * 1e-6; (88 - 44) * 1e-6].
Proof. vm_compute. reflexivity. Qed.

(** A row read off maps of 10 by 10 pixels: a draw [long = 997] is past the
    end of the kSZ map, a draw within the map gives the five entries. *)
Example parameter_row_runs :
  parameter_row (lib := ref_numpy) [1e-6] (constant_map 10 3) (constant_map 10 5)
                0 7 159 997 2
  = Raise IndexError
  /\ parameter_row (lib := ref_numpy) [1e-6] (constant_map 10 3) (constant_map 10 5)
                   0 7 159 4 2
     = Ok [7; 159; 1e-6; 0; 0].
Proof. split; vm_compute; reflexivity. Qed.
End ConcreteRuns.

(* ================================================================== *)
(** * Facts of binary64 arithmetic *)
(* ================================================================== *)

Section FloatFacts.
Local Open Scope float_scope.

Lemma is_nan_SF (x : float) : Prim2SF x = S754_nan -> is_nan x = true.
Proof.
  intros H. unfold is_nan. rewrite FloatAxioms.eqb_spec, H. reflexivity.
Qed.

Lemma SF_is_nan (x : float) : is_nan x = true -> Prim2SF x = S754_nan.
Proof.
  unfold is_nan. rewrite FloatAxioms.eqb_spec.
  destruct (Prim2SF x) as [s| s| |s m e]; try reflexivity; intros H; exfalso.
  - destruct s; discriminate H.
  - destruct s; discriminate H.
  - unfold SFeqb, SFcompare in H.
    rewrite Z.compare_refl, Pos.compare_refl in H.
    destruct s; discriminate H.
Qed.

Lemma nan_or_inf_mul_r (x y : float) : nan_or_inf y -> nan_or_inf (x * y).
Proof.
  unfold nan_or_inf. rewrite FloatAxioms.mul_spec.
  destruct (Prim2SF x), (Prim2SF y); simpl; tauto.
Qed.

Lemma nan_or_inf_div_l (x y : float) : nan_or_inf x -> nan_or_inf (x / y).
Proof.
  unfold nan_or_inf. rewrite FloatAxioms.div_spec.
  destruct (Prim2SF x), (Prim2SF y); simpl; tauto.
Qed.

Lemma nan_or_inf_mul_zero (x : float) : nan_or_inf x -> is_nan (x * 0) = true.
Proof.
  intros H. apply is_nan_SF. revert H. unfold nan_or_inf. rewrite FloatAxioms.mul_spec.
  destruct (Prim2SF x); simpl; tauto.
Qed.

Lemma is_nan_not_zero (x : float) : is_nan x = true -> (x =? 0) = false.
Proof.
  intros H. rewrite FloatAxioms.eqb_spec, (SF_is_nan _ H). reflexivity.
Qed.

Lemma is_finite_SF (x : float) :
  is_finite x = true ->
  match Prim2SF x with
  | S754_zero _ | S754_finite _ _ _ => True
  | _ => False
  end.
Proof.
  unfold is_finite, is_infinity, is_nan.
  rewrite !FloatAxioms.eqb_spec, FloatAxioms.abs_spec.
  destruct (Prim2SF x) as [s| s| |s m e]; simpl; try tauto.
  - replace (Prim2SF infinity) with (S754_infinity false) by reflexivity.
    destruct s; discriminate.
  - discriminate.
Qed.

Lemma SF_zero_eqb (x : float) (s : bool) :
  Prim2SF x = S754_zero s -> (x =? 0) = true.
Proof.
  intros H. rewrite FloatAxioms.eqb_spec, H. destruct s; reflexivity.
Qed.

Lemma finite_mul_zero (x : float) :
  is_finite x = true -> (x * 0 =? 0) = true.
Proof.
  intros H. apply is_finite_SF in H.
  destruct (Prim2SF x) as [s| s| |s m e] eqn:E; try contradiction.
  - apply (SF_zero_eqb _ (xorb s false)). rewrite FloatAxioms.mul_spec, E. reflexivity.
  - apply (SF_zero_eqb _ (xorb s false)). rewrite FloatAxioms.mul_spec, E. reflexivity.
Qed.
End FloatFacts.

(* ================================================================== *)
(** * [d_b] at a zero temperature perturbation *)
(* ================================================================== *)

Section ZeroPerturbation.
Local Open Scope float_scope.

(** At 100 THz the argument of [np.exp] is about 1761: the exponential
    overflows, [inf / inf] is a NaN, and the NaN survives the product with
    [dt = 0]. *)
Lemma d_b_overflow_nan (lib : Numpy) :
  exp_overflows lib -> is_nan (d_b 0 1e14) = true.
Proof.
  intros Hexp. unfold d_b, d_b_factor.
  cbn [nmul ndiv nadd nsub nexp np_pow py_pow dec F64].
  rewrite Hexp by (vm_compute; reflexivity).
  apply nan_or_inf_mul_zero, nan_or_inf_div_l, nan_or_inf_mul_r,
    nan_or_inf_div_l, nan_or_inf_mul_r.
  exact I.
Qed.

(** C8 (amended).  For every frequency at which the factor that multiplies
    [dt] in [d_b] is a finite binary64 number, [d_b(0, nu) == 0]. *)
Theorem d_b_zero_dt (lib : Numpy) (nu : float) :
  is_finite (d_b_factor 0 nu) = true -> (d_b 0 nu =? 0) = true.
Proof.
  intros H. unfold d_b. cbn [nmul F64]. now apply finite_mul_zero.
Qed.

(** At 143 GHz, with the reference libm. *)
Lemma d_b_zero_dt_witness :
  is_finite (d_b_factor (N := @F64 ref_numpy) 0 143e9) = true
  /\ (d_b (N := @F64 ref_numpy) 0 143e9 =? 0) = true.
Proof.
  split; [vm_compute; reflexivity | apply (d_b_zero_dt ref_numpy 143e9); vm_compute; reflexivity].
Defined.

(** C8 as stated fails: with no [np.exp] that overflows as IEEE-754
    prescribes is [d_b(0, nu) == 0] at every positive frequency. *)
Lemma d_b_zero_dt_overflow :
  ~ exists lib : Numpy,
      exp_overflows lib
      /\ forall nu : float, (0 <? nu) = true -> (d_b 0 nu =? 0) = true.
Proof.
  intros [lib [Hexp H]].
  specialize (H 1e14 eq_refl).
  rewrite (is_nan_not_zero _ (d_b_overflow_nan lib Hexp)) in H.
  discriminate H.
Qed.
End ZeroPerturbation.

(* ================================================================== *)
(** * The monopole of the converted spectrum *)
(* ================================================================== *)

Section Monopole.
Local Open Scope float_scope.

(** Whatever [TCMB ** 2.] is, [(TCMB ** 2. * 0 * 1e12) / 0.0] is a NaN. *)
Lemma zero_over_zero_nan (t : float) : is_nan ((t * 0 * 1e12) / 0) = true.
Proof.
  apply is_nan_SF.
  rewrite FloatAxioms.div_spec, !FloatAxioms.mul_spec.
  replace (Prim2SF 0) with (S754_zero false) by reflexivity.
  assert (H : exists m e, Prim2SF 1e12 = S754_finite false m e)
    by (vm_compute; eauto).
  destruct H as (m & e & ->).
  destruct (Prim2SF t); reflexivity.
Qed.

Lemma dl_fac_monopole (n : nat) :
  exists rest, dl_fac (arange (Z.of_nat (S n))) = 0 :: rest.
Proof.
  unfold arange. rewrite Nat2Z.id. simpl seq. simpl map.
  eexists. unfold dl_fac at 1. simpl map. f_equal.
Qed.

Lemma cl_of_dl_monopole (lib : Numpy) (d : float) (dl : list float) :
  exists v rest,
    cl_of_dl (d :: dl) (arange (Z.of_nat (length (d :: dl)))) = Ok (v :: rest)
    /\ is_nan v = true.
Proof.
  destruct (dl_fac_monopole (length dl)) as [fs Hfs].
  unfold cl_of_dl. simpl length. rewrite Hfs.
  exists ((py_pow TCMB 2 * 0 * 1e12) / 0), (zip_with (fun d f => (py_pow TCMB 2 * d * 1e12) / f) dl fs).
  split; [reflexivity | apply zero_over_zero_nan].
Qed.

Lemma flat_cl_monopole (lib : Numpy) (amp : float) :
  exists v rest, flat_cl amp = Ok (v :: rest) /\ is_nan v = true.
Proof.
  unfold flat_cl.
  remember (Z.to_nat 5050) as n eqn:En.
  assert (E1 : Z.to_nat 5051 = S n) by lia.
  assert (E2 : 5051%Z = Z.of_nat (length (amp :: replicate n amp))).
  { cbn [length]. rewrite length_replicate. lia. }
  rewrite E1, E2. apply cl_of_dl_monopole.
Qed.

(** C2 (the code at the failing entry).  In the conversion of any
    non-empty spectrum (CAMB's in [create_cmb_map]) and of the flat spectra
    of [create_ksz_map] and [create_tsz_map], the entry of [cl_tt] at
    [l = 0] is [0.0 / 0.0], a NaN: the division is not guarded and the
    monopole is not zero. *)
Theorem monopole_is_nan (lib : Numpy) :
  (forall (d : float) (dl : list float),
      exists v rest,
        cl_of_dl (d :: dl) (arange (Z.of_nat (length (d :: dl)))) = Ok (v :: rest)
        /\ is_nan v = true)
  /\ (forall amp : float,
        exists v rest, flat_cl amp = Ok (v :: rest) /\ is_nan v = true).
Proof. split; [apply cl_of_dl_monopole | apply flat_cl_monopole]. Qed.
End Monopole.

(* ================================================================== *)
(** * [classical_tsz] in exact arithmetic *)
(* ================================================================== *)

Section ExactFormulas.
Local Open Scope R_scope.

Lemma real_of_dec_0 (m : Z) : real_of_dec m 0 = IZR m.
Proof. unfold real_of_dec. simpl. ring. Qed.

Lemma real_of_dec_pos (m e : Z) : (0 < m)%Z -> 0 < real_of_dec m e.
Proof.
  intros H. unfold real_of_dec. apply Rmult_lt_0_compat.
  - now apply IZR_lt.
  - apply powerRZ_lt. lra.
Qed.

Lemma k_b_TCMB_neq_0 : (k_b * TCMB)%R <> 0.
Proof.
  assert (0 < k_b) by (apply real_of_dec_pos; lia).
  assert (0 < TCMB) by (apply real_of_dec_pos; lia).
  nra.
Qed.

Lemma x_b_exact (nu : R) : x_b nu = x_b_spec nu.
Proof.
  unfold x_b, x_b_spec. cbn [nmul ndiv Exact].
  field. split; apply Rgt_not_eq, real_of_dec_pos; lia.
Qed.

Lemma bv_is_planck (nu : R) : bv nu = B_nu nu.
Proof.
  unfold bv, B_nu. cbn [nmul ndiv nsub nexp np_pow py_pow Exact].
  rewrite x_b_exact, !real_of_dec_0.
  generalize (exp (x_b_spec nu) - 1). intros E.
  unfold x_b_spec, Rdiv.
  change (Pos.to_nat 2) with 2%nat.
  generalize k_b_TCMB_neq_0. generalize (@k_b R _) (@TCMB R _) (@h_p R _) (@c R _).
  intros k T h c0 HkT.
  assert (Hi : k * T * / (k * T) = 1) by now apply Rinv_r.
  transitivity (2 * h * nu ^ 3 * / c0 ^ 2 * / E * (k * T * / (k * T))).
  - ring.
  - rewrite Hi. ring.
Qed.

Lemma B_nu_words_exact (nu : R) : B_nu_words nu = B_nu nu.
Proof.
  unfold B_nu_words, B_nu, x_b_words, x_b_spec.
  cbn [nmul ndiv nsub nexp np_pow py_pow dec Exact].
  rewrite !real_of_dec_0.
  change (Pos.to_nat 2) with 2%nat. change (Pos.to_nat 3) with 3%nat.
  reflexivity.
Qed.

(** C6 (amended).  Read in exact arithmetic, [classical_tsz(y, nu)] is
    [y * [x_b e^x_b / (e^x_b - 1)] * [x_b (e^x_b + 1) / (e^x_b - 1) - 4] * B_nu]
    with [x_b = (h nu) / (k_B T_CMB)], and the prefactor [bv] of the code,
    [2 k_B T_CMB (nu^2 / c^2) (x_b / (e^x_b - 1))], is the blackbody intensity
    [B_nu = 2 h nu^3 / c^2 / (e^x_b - 1)]; so are the code's [x_b], [bv] and
    [classical_tsz] the claim's formulas evaluated from left to right. *)
Theorem classical_tsz_formula (y nu : R) :
  classical_tsz y nu
  = y * (x_b_spec nu * exp (x_b_spec nu) / (exp (x_b_spec nu) - 1))
      * (x_b_spec nu * ((exp (x_b_spec nu) + 1) / (exp (x_b_spec nu) - 1)) - 4)
      * B_nu nu
  /\ bv nu = B_nu nu
  /\ x_b nu = x_b_words nu
  /\ bv nu = B_nu_words nu
  /\ classical_tsz y nu = classical_tsz_words y nu.
Proof.
  assert (H : classical_tsz y nu
              = y * (x_b_spec nu * exp (x_b_spec nu) / (exp (x_b_spec nu) - 1))
                  * (x_b_spec nu * ((exp (x_b_spec nu) + 1) / (exp (x_b_spec nu) - 1)) - 4)
                  * B_nu nu).
  { unfold classical_tsz. cbn [nmul ndiv nsub nadd nexp Exact].
    rewrite bv_is_planck, x_b_exact, !real_of_dec_0. reflexivity. }
  split; [exact H |]. split; [apply bv_is_planck |].
  split; [apply x_b_exact |].
  split; [now rewrite B_nu_words_exact, bv_is_planck |].
  rewrite H. unfold classical_tsz_words. rewrite B_nu_words_exact.
  cbn [nmul ndiv nsub nadd nexp dec Exact]. rewrite !real_of_dec_0.
  change (x_b_words nu) with (x_b_spec nu).
  unfold Rdiv. ring.
Qed.
End ExactFormulas.

Section Binary64Formula.
Local Open Scope float_scope.

(** C6 as stated fails of the numbers the code computes.  In binary64 the
    code's [x_b = (h_p / (k_b * TCMB)) * frequency] is not the claim's
    [(h * nu) / (k_B * T_CMB)], whatever libm is: at 217 GHz they are
    [3.8217785493270853] and [3.8217785493270857].  With the reference libm
    the prefactor [bv] then differs from [B_nu]
    ([3.3717714490254562e-18] and [3.3717714490254554e-18]) and
    [classical_tsz(1, 217 GHz)] from the claim's product. *)
Lemma classical_tsz_formula_binary64 :
  (~ exists lib : Numpy, forall nu : float, x_b nu = x_b_words nu)
  /\ ~ (forall (lib : Numpy) (nu : float), bv nu = B_nu_words nu)
  /\ ~ (forall (lib : Numpy) (y nu : float),
          classical_tsz y nu = classical_tsz_words y nu).
Proof.
  split; [| split].
  - intros [lib H]. specialize (H 217e9).
    apply (f_equal Prim2SF) in H. vm_compute in H. discriminate H.
  - intros H. specialize (H ref_numpy 217e9).
    apply (f_equal Prim2SF) in H. vm_compute in H. discriminate H.
  - intros H. specialize (H ref_numpy 1 217e9).
    apply (f_equal Prim2SF) in H. vm_compute in H. discriminate H.
Qed.
End Binary64Formula.

(* ================================================================== *)
(** * Indexing and slicing *)
(* ================================================================== *)

Section Indexing.
Local Open Scope Z_scope.

Lemma np_index_nonneg (n : nat) (i : Z) :
  0 <= i < Z.of_nat n -> np_index n i = Ok (Z.to_nat i).
Proof.
  intros H. unfold np_index.
  destruct (0 <=? i) eqn:E1; [| lia].
  destruct (i <? Z.of_nat n) eqn:E2; [reflexivity | lia].
Qed.

Lemma np_index_past_end (n : nat) (i : Z) :
  Z.of_nat n <= i -> np_index n i = Raise IndexError.
Proof.
  intros H. unfold np_index.
  destruct (i <? Z.of_nat n) eqn:E2; [lia |].
  destruct (i <? 0) eqn:E3; [lia |].
  now rewrite !andb_false_r.
Qed.

Lemma getitem_lookup {X : Type} (l : list X) (i : Z) (x : X) :
  0 <= i -> l !! Z.to_nat i = Some x -> getitem l i = Ok x.
Proof.
  intros Hi H. unfold getitem.
  rewrite np_index_nonneg.
  - simpl. now rewrite H.
  - apply lookup_lt_Some in H. lia.
Qed.

Lemma getitem_Ok_nonneg {X : Type} (l : list X) (i : Z) (x : X) :
  0 <= i -> getitem l i = Ok x -> l !! Z.to_nat i = Some x.
Proof.
  intros Hi. unfold getitem, np_index.
  destruct ((0 <=? i) && (i <? Z.of_nat (length l))) eqn:E.
  - simpl. destruct (l !! Z.to_nat i); [congruence | discriminate].
  - destruct ((- Z.of_nat (length l) <=? i) && (i <? 0)) eqn:E'; [lia | discriminate].
Qed.

Lemma getitem_past_end {X : Type} (l : list X) (i : Z) :
  Z.of_nat (length l) <= i -> getitem l i = Raise IndexError.
Proof.
  intros H. unfold getitem. now rewrite np_index_past_end.
Qed.

Lemma getitem2_lookup (a : Arr2) (i j : Z) (row : list float) (v : float) :
  0 <= i -> 0 <= j ->
  a !! Z.to_nat i = Some row -> row !! Z.to_nat j = Some v ->
  getitem2 a i j = Ok v.
Proof.
  intros Hi Hj Ha Hr. unfold getitem2.
  rewrite (getitem_lookup a i row Hi Ha). simpl.
  now apply getitem_lookup.
Qed.

Lemma getitem2_constant_map (n : Z) (v : float) (i j : Z) :
  0 <= i < n -> 0 <= j < n -> getitem2 (constant_map n v) i j = Ok v.
Proof.
  intros Hi Hj. unfold constant_map.
  apply (getitem2_lookup _ i j (replicate (Z.to_nat n) v)); try lia.
  - apply lookup_replicate. split; [reflexivity | lia].
  - apply lookup_replicate. split; [reflexivity | lia].
Qed.

Lemma slice_bound_nonneg (n : nat) (i : Z) :
  0 <= i <= Z.of_nat n -> slice_bound n i = Z.to_nat i.
Proof.
  intros H. unfold slice_bound.
  destruct (i <? 0) eqn:E; lia.
Qed.

Lemma np_slice_replicate {X : Type} (n : nat) (x : X) (lo hi : Z) :
  0 <= lo <= hi -> hi <= Z.of_nat n ->
  np_slice (replicate n x) lo hi = replicate (Z.to_nat (hi - lo)) x.
Proof.
  intros H1 H2. unfold np_slice.
  rewrite length_replicate, !slice_bound_nonneg by lia.
  rewrite drop_replicate, take_replicate. f_equal. lia.
Qed.

Lemma map_replicate {X Y : Type} (f : X -> Y) (n : nat) (x : X) :
  map f (replicate n x) = replicate n (f x).
Proof. induction n as [| n IH]; simpl; [reflexivity | now rewrite IH]. Qed.

Lemma slice2_constant_map (n : Z) (v : float) (r0 r1 c0 c1 : Z) :
  0 <= r0 <= r1 -> r1 <= n -> 0 <= c0 <= c1 -> c1 <= n ->
  slice2 (constant_map n v) r0 r1 c0 c1
  = replicate (Z.to_nat (r1 - r0)) (replicate (Z.to_nat (c1 - c0)) v).
Proof.
  intros. unfold slice2, constant_map.
  rewrite np_slice_replicate by lia.
  rewrite map_replicate.
  now rewrite np_slice_replicate by lia.
Qed.
End Indexing.

(* ================================================================== *)
(** * The background-subtracted amplitude on a constant map *)
(* ================================================================== *)

Section ConstantMap.
Local Open Scope float_scope.

Lemma finite_sub_self (x : float) : is_finite x = true -> (x - x =? 0) = true.
Proof.
  intros H. apply is_finite_SF in H.
  apply (SF_zero_eqb _ false). rewrite FloatAxioms.sub_spec.
  destruct (Prim2SF x) as [s| s| |s m e]; try contradiction.
  - destruct s; reflexivity.
  - unfold SF64sub, SFsub. rewrite Z.sub_diag. reflexivity.
Qed.

Lemma nan_sub (y : float) : is_nan (nan - y) = true.
Proof.
  apply is_nan_SF. rewrite FloatAxioms.sub_spec. reflexivity.
Qed.

(** C7 (amended).  On a constant map of at least 1000 by 1000 pixels whose
    value [c] is finite and whose 5 by 5 mean [np.mean] returns as [c], the
    pixel at any [(long, lat)] of [[2, 998)] minus the mean of
    [[long-2:long+3, lat-2:lat+3]] is zero. *)
Theorem constant_map_amplitude (lib : Numpy) (c : float) (n long lat : Z) :
  (1000 <= n)%Z -> (2 <= long < 998)%Z -> (2 <= lat < 998)%Z ->
  is_finite c = true ->
  np_mean (replicate 5 (replicate 5 c)) = c ->
  exists amp,
    background_subtracted (constant_map n c) long lat = Ok amp
    /\ (amp =? 0) = true.
Proof.
  intros Hn Hlong Hlat Hc Hmean. unfold background_subtracted.
  rewrite getitem2_constant_map by lia. simpl res_bind.
  rewrite slice2_constant_map by lia.
  replace (long + 3 - (long - 2))%Z with 5%Z by lia.
  replace (lat + 3 - (lat - 2))%Z with 5%Z by lia.
  change (Z.to_nat 5) with 5%nat. rewrite Hmean.
  eexists. split; [reflexivity | now apply finite_sub_self].
Qed.

(** The map that is 0.5 everywhere, with the reference [np.mean]. *)
Lemma constant_map_amplitude_witness :
  exists amp,
    background_subtracted (lib := ref_numpy) (constant_map 1000 0.5) 500 2 = Ok amp
    /\ (amp =? 0) = true.
Proof.
  apply (constant_map_amplitude ref_numpy 0.5 1000 500 2);
    first [lia | vm_compute; reflexivity].
Defined.

(** C7 as stated fails on the constant map whose value is a NaN: the
    amplitude is [nan - mean], a NaN, whatever [np.mean] returns. *)
Lemma constant_map_amplitude_nan :
  ~ exists lib : Numpy,
      forall (c : float) (long lat : Z) (amp : float),
        (2 <= long < 998)%Z -> (2 <= lat < 998)%Z ->
        background_subtracted (constant_map 1000 c) long lat = Ok amp ->
        (amp =? 0) = true.
Proof.
  intros [lib H].
  specialize (H nan 2%Z 2%Z
                (nan - np_mean (slice2 (constant_map 1000 nan) 0 5 0 5))).
  rewrite (is_nan_not_zero _ (nan_sub _)) in H.
  enough (false = true) by discriminate.
  apply H; try lia.
  unfold background_subtracted.
  rewrite getitem2_constant_map by lia. reflexivity.
Qed.
End ConstantMap.

(* ================================================================== *)
(** * Running the monad *)
(* ================================================================== *)

Section Runs.
Context {env : Env}.

Lemma returns_result {X : Type} (m : M X) (s : RNG) (x : X) :
  result (m s) = Ok x <-> returns m s x (rng_after (m s)) (events (m s)).
Proof.
  unfold returns. destruct (m s) as [r s' tr]; simpl.
  split; [intros -> | intros H; injection H]; auto.
Qed.

Lemma returns_ret_inv {X : Type} (x y : X) (s s' : RNG) (tr : list Event) :
  returns (ret x) s y s' tr -> y = x /\ s' = s /\ tr = [].
Proof. unfold returns, ret. intros H. injection H. auto. Qed.

Lemma returns_lift_inv {X : Type} (r : Res X) (y : X) (s s' : RNG)
    (tr : list Event) :
  returns (lift r) s y s' tr -> r = Ok y /\ s' = s /\ tr = [].
Proof. unfold returns, lift. intros H. injection H. auto. Qed.

Lemma returns_bind {X Y : Type} (m : M X) (f : X -> M Y) (s s2 : RNG) (y : Y)
    (tr : list Event) :
  returns (bind m f) s y s2 tr <->
  exists x s1 tr1 tr2,
    returns m s x s1 tr1 /\ returns (f x) s1 y s2 tr2 /\ tr = tr1 ++ tr2.
Proof.
  unfold returns, bind. destruct (m s) as [r s1 tr1]; simpl. split.
  - destruct r as [x | e]; [| discriminate].
    destruct (f x s1) as [r2 s2' tr2] eqn:E; simpl.
    intros H. injection H as -> -> <-.
    exists x, s1, tr1, tr2. rewrite E. auto.
  - intros (x & s1' & tr1' & tr2 & H1 & H2 & ->).
    injection H1 as -> -> ->. rewrite H2. reflexivity.
Qed.

Lemma returns_seed_inv (seed : Z) (u : unit) (s s' : RNG) (tr : list Event) :
  returns (seed_rng seed) s u s' tr -> s' = np_random_seed seed /\ tr = [].
Proof. unfold returns, seed_rng. intros H. injection H. auto. Qed.

Lemma returns_randint_inv (low high z : Z) (s s' : RNG) (tr : list Event) :
  returns (randint low high) s z s' tr ->
  np_random_randint low high s = (z, s') /\ tr = [].
Proof.
  unfold returns, randint. destruct (np_random_randint low high s) as [z1 s1].
  intros H. injection H as -> -> <-. auto.
Qed.

Lemma returns_gaussian_inv mp el cl bl (g : Arr2) (s s' : RNG) (tr : list Event) :
  returns (call_gaussian mp el cl bl) s g s' tr ->
  make_gaussian_realisation mp el cl bl s = (g, s')
  /\ tr = [EvGaussian cl (match bl with Some _ => true | None => false end) g].
Proof.
  unfold returns, call_gaussian.
  destruct (make_gaussian_realisation mp el cl bl s) as [g1 s1].
  intros H. injection H as -> -> <-. auto.
Qed.

Lemma returns_covariance_inv a n (sg : Sigma) (s s' : RNG) (tr : list Event) :
  returns (call_covariance a n) s sg s' tr ->
  get_covariance a n s = (sg, s') /\ tr = [EvCovariance].
Proof.
  unfold returns, call_covariance.
  destruct (get_covariance a n s) as [g1 s1].
  intros H. injection H as -> -> <-. auto.
Qed.

(** Seeding first makes a computation independent of the incoming state. *)
Lemma bind_seed_any_state {Y : Type} (seed : Z) (k : unit -> M Y) (s1 s2 : RNG) :
  bind (seed_rng seed) k s1 = bind (seed_rng seed) k s2.
Proof. reflexivity. Qed.

Lemma bind_any_state {X Y : Type} (m : M X) (k : X -> M Y) (s1 s2 : RNG) :
  m s1 = m s2 -> bind m k s1 = bind m k s2.
Proof. unfold bind. now intros ->. Qed.
End Runs.

Ltac run_inv H :=
  lazymatch type of H with
  | returns (bind _ _) _ _ _ _ =>
      let x := fresh "x" in
      let s := fresh "s" in
      let tr1 := fresh "tr" in
      let tr2 := fresh "tr" in
      let H1 := fresh "Hrun" in
      let E := fresh "Etr" in
      apply returns_bind in H;
      destruct H as (x & s & tr1 & tr2 & H1 & H & E)
  end.

(* ================================================================== *)
(** * Determinism *)
(* ================================================================== *)

Section Determinism.
Context {lib : Numpy} {env : Env}.

Lemma create_cmb_map_any_state res R seed (s1 s2 : RNG) :
  create_cmb_map res R seed s1 = create_cmb_map res R seed s2.
Proof. apply bind_seed_any_state. Qed.

Lemma secondary_map_any_state amp res seed (s1 s2 : RNG) :
  secondary_map amp res seed s1 = secondary_map amp res seed s2.
Proof. apply bind_seed_any_state. Qed.

Lemma create_ksz_map_any_state res seed (s1 s2 : RNG) :
  create_ksz_map res seed s1 = create_ksz_map res seed s2.
Proof. apply bind_any_state, secondary_map_any_state. Qed.

Lemma create_tsz_map_any_state res seed (s1 s2 : RNG) :
  create_tsz_map res seed s1 = create_tsz_map res seed s2.
Proof. apply bind_any_state, secondary_map_any_state. Qed.

(** C5.  Every method seeds numpy's generator before anything is drawn, and
    the collaborators depend on nothing hidden but the generator: whatever
    state the generator is in when they are called, two runs of
    [create_parameter_file] with the same arguments give the same matrix, and
    two calls of a map-building method with the same seed and resolution give
    the same field (and make the same calls, and leave the same state). *)
Theorem same_arguments_same_output (angular_resolution : float)
    (realizations : nat) (seed : Z) (s1 s2 : RNG) :
  create_parameter_file angular_resolution realizations s1
  = create_parameter_file angular_resolution realizations s2
  /\ create_cmb_map angular_resolution realizations seed s1
     = create_cmb_map angular_resolution realizations seed s2
  /\ create_ksz_map angular_resolution seed s1
     = create_ksz_map angular_resolution seed s2
  /\ create_tsz_map angular_resolution seed s1
     = create_tsz_map angular_resolution seed s2.
Proof.
  split; [| split; [| split]].
  - apply bind_any_state, create_cmb_map_any_state.
  - apply create_cmb_map_any_state.
  - apply create_ksz_map_any_state.
  - apply create_tsz_map_any_state.
Qed.
End Determinism.

(* ================================================================== *)
(** * [create_cmb_map] *)
(* ================================================================== *)

Section InpaintLoop.
Context {lib : Numpy} {env : Env}.
Local Open Scope float_scope.

Lemma inpaint_step_run a sg (i : nat) cmb_anis sim_map (s : RNG) :
  inpaint_step a sg i (cmb_anis, sim_map) s
  = let '(out, sim_map', s') := inpainting sim_map a sg s in
    mkOut (Ok (cmb_anis ++ [central_diff out], sim_map')) s'
          [EvInpainting sim_map out].
Proof.
  unfold inpaint_step, bind, call_inpainting, ret, central_diff.
  destruct (inpainting sim_map a sg s) as [[[[ci si] sf] sm'] s']; reflexivity.
Qed.

(** The loop of [create_cmb_map]: one call of [inpainting] per iteration;
    the estimate appended is the difference of the central slices of what
    that call returned. *)
Lemma inpaint_loop_run a sg (l : list nat) cmb_anis sim_map (s : RNG) st s' tr :
  returns (m_fold (inpaint_step a sg) l (cmb_anis, sim_map)) s st s' tr ->
  fst st = cmb_anis ++ map central_diff (inpaint_outs tr)
  /\ length (inpaint_outs tr) = length l
  /\ tr = zip_with EvInpainting (inpaint_inputs tr) (inpaint_outs tr)
  /\ (forall P : Arr2 * Arr2 * Arr2 -> Prop,
        (forall m a sg (s : RNG), P (fst (fst (inpainting m a sg s)))) ->
        Forall P (inpaint_outs tr))
  /\ (inpainting_reads_only env ->
      inpaint_inputs tr = replicate (length l) sim_map).
Proof.
  revert cmb_anis sim_map s st s' tr.
  induction l as [| i l IH]; intros cmb_anis sim_map s st s' tr H; cbn [m_fold] in H.
  - apply returns_ret_inv in H as (-> & -> & ->). simpl.
    rewrite app_nil_r. repeat split; auto.
  - run_inv H. subst tr.
    unfold returns in Hrun. rewrite inpaint_step_run in Hrun.
    destruct (inpainting sim_map a sg s) as [[out sim_map'] s1] eqn:E.
    injection Hrun as <- <- <-.
    apply IH in H as (H1 & H2 & H3 & H4 & H5).
    assert (E1 : inpaint_outs ([EvInpainting sim_map out] ++ tr1)
                 = out :: inpaint_outs tr1) by reflexivity.
    assert (E2 : inpaint_inputs ([EvInpainting sim_map out] ++ tr1)
                 = sim_map :: inpaint_inputs tr1) by reflexivity.
    rewrite E1, E2, H1. cbn [map length replicate fst zip_with].
    rewrite <- app_assoc, H2, <- H3.
    repeat split; try reflexivity.
    + intros P HP. constructor; [| now apply H4].
      specialize (HP sim_map a sg s). now rewrite E in HP.
    + intros Hro. rewrite (H5 Hro). f_equal. f_equal.
      specialize (Hro sim_map a sg s). now rewrite E in Hro.
Qed.

Lemma inpaint_loop_total a sg (l : list nat) st (s : RNG) :
  exists st', result (m_fold (inpaint_step a sg) l st s) = Ok st'.
Proof.
  revert st s. induction l as [| i l IH]; intros [cmb_anis sim_map] s.
  - eexists. reflexivity.
  - cbn [m_fold]. unfold bind. rewrite inpaint_step_run.
    destruct (inpainting sim_map a sg s) as [[out sim_map'] s1]. cbn.
    apply IH.
Qed.

Lemma create_cmb_map_run res (R : nat) seed (s : RNG) anis s' tr :
  returns (create_cmb_map res R seed) s anis s' tr ->
  exists cl_tt nl cmb_map noise_map outs,
    tr = [EvGaussian cl_tt true cmb_map; EvGaussian nl false noise_map;
          EvCovariance]
         ++ zip_with EvInpainting (inpaint_inputs tr) outs
    /\ inpaint_outs tr = outs
    /\ length outs = R
    /\ anis = map (fun v => v * 1e-6) (flatten (map central_diff outs))
    /\ (forall P : Arr2 * Arr2 * Arr2 -> Prop,
          (forall m a sg (s : RNG), P (fst (fst (inpainting m a sg s)))) ->
          Forall P outs)
    /\ (inpainting_reads_only env ->
        inpaint_inputs tr = replicate R (arr3_add [cmb_map] [noise_map])).
Proof.
  intros H. unfold create_cmb_map in H.
  run_inv H. apply returns_seed_inv in Hrun as (-> & ->).
  run_inv H. apply returns_lift_inv in Hrun as (Hcl & -> & ->).
  run_inv H. apply returns_lift_inv in Hrun as (Hnx & -> & ->).
  run_inv H. apply returns_lift_inv in Hrun as (Hra & -> & ->).
  run_inv H. apply returns_lift_inv in Hrun as (Hdec & -> & ->).
  unfold meshgrid in H. cbn beta iota zeta in H.
  run_inv H. apply returns_gaussian_inv in Hrun as (Hg1 & ->).
  run_inv H. apply returns_gaussian_inv in Hrun as (Hg2 & ->).
  run_inv H. apply returns_covariance_inv in Hrun as (Hsg & ->).
  run_inv H.
  match goal with
  | st : (list Arr2 * Arr3)%type |- _ => destruct st as [cmb_anis sim_map']
  end.
  apply returns_ret_inv in H as (-> & -> & ->).
  apply inpaint_loop_run in Hrun as (H1 & H2 & H3 & H4 & H5).
  simpl in H1. subst. rewrite length_seq in H2, H5.
  match goal with
  | _ : make_gaussian_realisation _ _ ?cl (Some _) _ = (?g1, _),
    _ : make_gaussian_realisation _ _ ?nl None _ = (?g2, _),
    _ : ?t = zip_with _ _ _ |- _ =>
      exists cl, nl, g1, g2, (inpaint_outs t)
  end.
  simpl. rewrite !app_nil_r. rewrite <- H3. auto 10.
Qed.

Lemma result_bind {X Y : Type} (m : M X) (f : X -> M Y) (s : RNG) :
  result (bind m f s)
  = match result (m s) with
    | Ok x => result (f x (rng_after (m s)))
    | Raise e => Raise e
    end.
Proof. unfold bind. destruct (result (m s)); reflexivity. Qed.

(** [create_cmb_map] returns as soon as CAMB's spectrum is not empty and the
    side of the box is a number of pixels that is not negative. *)
Lemma create_cmb_map_total res (R : nat) seed (s : RNG) (nx : Z) :
  camb_total_TT <> [] -> box_pixels 200 res = Ok nx -> (0 <= nx)%Z ->
  exists anis, result (create_cmb_map res R seed s) = Ok anis.
Proof.
  intros Hcamb Hnx Hpos. unfold create_cmb_map.
  destruct camb_total_TT as [| d dl] eqn:Ecamb; [congruence |].
  destruct (cl_of_dl_monopole lib d dl) as (v & rest & Hcl & _).
  rewrite result_bind. cbn [seed_rng result rng_after].
  rewrite result_bind. cbn [lift result rng_after]. rewrite Hcl.
  rewrite result_bind. cbn [lift result rng_after]. rewrite Hnx.
  unfold linspace. destruct (nx <? 0)%Z eqn:E; [lia |].
  rewrite result_bind. cbn [lift result rng_after].
  rewrite result_bind. cbn [lift result rng_after].
  unfold meshgrid. cbn beta iota zeta.
  rewrite result_bind. unfold call_gaussian at 1 2.
  destruct (make_gaussian_realisation _ _ (v :: rest) _ _) as [g1 s1].
  cbn [result rng_after].
  rewrite result_bind. unfold call_gaussian at 1 2.
  destruct (make_gaussian_realisation _ _ _ None _) as [g2 s2].
  cbn [result rng_after].
  rewrite result_bind. unfold call_covariance at 1 2.
  destruct (get_covariance _ _ _) as [sg s3].
  cbn [result rng_after].
  rewrite result_bind.
  match goal with
  | |- context [m_fold (inpaint_step ?a ?sg) ?l ?st ?s] =>
      destruct (inpaint_loop_total a sg l st s) as [[cmb_anis sm] ->]
  end.
  eexists. reflexivity.
Qed.

Lemma np_slice_one {X : Type} (l : list X) (i : Z) (x : X) :
  (0 <= i)%Z -> l !! Z.to_nat i = Some x -> np_slice l i (i + 1) = [x].
Proof.
  intros Hi H. pose proof (lookup_lt_Some _ _ _ H) as Hlt.
  unfold np_slice. rewrite !slice_bound_nonneg by lia.
  rewrite (drop_S _ _ _ H).
  replace (Z.to_nat (i + 1) - Z.to_nat i)%nat with 1%nat by lia.
  reflexivity.
Qed.

Lemma slice2_one (a : Arr2) (i j : Z) (v : float) :
  (0 <= i)%Z -> (0 <= j)%Z -> getitem2 a i j = Ok v ->
  slice2 a i (i + 1) j (j + 1) = [[v]].
Proof.
  intros Hi Hj H. unfold getitem2 in H.
  destruct (getitem a i) as [row |] eqn:Erow; [| discriminate].
  simpl in H. apply getitem_Ok_nonneg in Erow, H; try assumption.
  unfold slice2. rewrite (np_slice_one a i row Hi Erow). simpl.
  now rewrite (np_slice_one row j v Hj H).
Qed.

Lemma slice2_centre (a : Arr2) (v : float) :
  getitem2 a 33 33 = Ok v -> slice2 a 33 34 33 34 = [[v]].
Proof. intros H. apply (slice2_one a 33 33 v); [lia | lia | exact H]. Qed.

Lemma estimates_of_centres (outs : list (Arr2 * Arr2 * Arr2)) :
  Forall has_centre outs ->
  Forall2 centre_estimate outs
          (map (fun v => v * 1e-6) (flatten (map central_diff outs))).
Proof.
  induction 1 as [| [[ci si] sf] outs [[p Hp] [f Hf]] _ IH]; [constructor |].
  unfold flatten in *. cbn [map concat].
  unfold central_diff at 1.
  rewrite (slice2_centre sf f Hf), (slice2_centre si p Hp).
  cbn. constructor; [| exact IH].
  exists p, f. auto.
Qed.

(** C1.  [create_cmb_map] returns (CAMB's spectrum not being empty and the
    box having a side of [nx >= 0] pixels), it has called [inpainting] once
    per realization, and the sequence it returns is, call by call, the slice
    [[33:34, 33:34]] of the filtered map minus that of the inpainted map,
    flattened and scaled by [1e-6]: where the maps have a pixel (33, 33), the
    estimate of iteration [i] is that pixel of the filtered map minus that
    pixel of the inpainted map of call [i], times [1e-6]. *)
Theorem cmb_anisotropy_estimates res (R : nat) seed (s : RNG) (nx : Z) :
  camb_total_TT <> [] -> box_pixels 200 res = Ok nx -> (0 <= nx)%Z ->
  exists anis,
    result (create_cmb_map res R seed s) = Ok anis
    /\ let outs := inpaint_outs (events (create_cmb_map res R seed s)) in
       length outs = R
       /\ anis = map (fun v => v * 1e-6) (flatten (map central_diff outs))
       /\ (Forall has_centre outs -> Forall2 centre_estimate outs anis).
Proof.
  intros Hcamb Hnx Hpos.
  destruct (create_cmb_map_total res R seed s nx Hcamb Hnx Hpos) as [anis Hres].
  exists anis. split; [exact Hres |].
  apply returns_result, create_cmb_map_run in Hres
    as (cl & nl & g1 & g2 & outs & _ & Houts & Hlen & Hanis & _).
  cbn zeta. rewrite Houts. repeat split; try assumption.
  intros Hc. rewrite Hanis. now apply estimates_of_centres.
Qed.

Lemma zip_with_replicate_map {X Y Z : Type} (f : X -> Y -> Z) (x : X) (l : list Y) :
  zip_with f (replicate (length l) x) l = map (f x) l.
Proof. induction l as [| y l IH]; simpl; [reflexivity | now rewrite IH]. Qed.

(** C9.  [inpainting] leaving the map it is handed as it is (it only reads
    its inputs), the calls of [create_cmb_map] are: one signal realization,
    one noise realization, the covariance, and then [R] calls of [inpainting]
    that are all handed the same map, the sum of those two realizations. *)
Theorem composite_map_built_once res (R : nat) seed (s : RNG) (nx : Z) :
  inpainting_reads_only env ->
  camb_total_TT <> [] -> box_pixels 200 res = Ok nx -> (0 <= nx)%Z ->
  exists cl_tt nl cmb_map noise_map outs,
    length outs = R
    /\ events (create_cmb_map res R seed s)
       = [EvGaussian cl_tt true cmb_map; EvGaussian nl false noise_map;
          EvCovariance]
         ++ map (EvInpainting (arr3_add [cmb_map] [noise_map])) outs.
Proof.
  intros Hro Hcamb Hnx Hpos.
  destruct (create_cmb_map_total res R seed s nx Hcamb Hnx Hpos) as [anis Hres].
  apply returns_result, create_cmb_map_run in Hres
    as (cl & nl & g1 & g2 & outs & Htr & Houts & Hlen & _ & _ & Hin).
  exists cl, nl, g1, g2, outs. split; [exact Hlen |].
  rewrite Htr at 1. rewrite (Hin Hro). f_equal.
  subst R. apply zip_with_replicate_map.
Qed.
End InpaintLoop.

Section CmbRuns.
Local Open Scope float_scope.

Lemma ref_env_reads_only : inpainting_reads_only ref_env.
Proof. intros sim_map a sg s. reflexivity. Qed.

(** Two realizations at 3.0 arcmin, on the reference collaborators. *)
Lemma cmb_anisotropy_estimates_witness :
  @camb_total_TT ref_env <> []
  /\ box_pixels 200 3 = Ok 66%Z
  /\ (0 <= 66)%Z
  /\ exists anis,
      result (create_cmb_map (lib := ref_numpy) (env := ref_env) 3 2 40 0%Z) = Ok anis
      /\ let outs := inpaint_outs (events (create_cmb_map (lib := ref_numpy) (env := ref_env) 3 2 40 0%Z)) in
         length outs = 2%nat
         /\ anis = map (fun v => v * 1e-6) (flatten (map central_diff outs))
         /\ (Forall has_centre outs -> Forall2 centre_estimate outs anis).
Proof.
  assert (H1 : @camb_total_TT ref_env <> []) by discriminate.
  assert (H2 : box_pixels 200 3 = Ok 66%Z) by (vm_compute; reflexivity).
  assert (H3 : (0 <= 66)%Z) by lia.
  repeat split; try assumption.
  exact (cmb_anisotropy_estimates (lib := ref_numpy) (env := ref_env) 3 2 40 0%Z 66 H1 H2 H3).
Defined.
End CmbRuns.

(* ================================================================== *)
(** * The Compton-y map *)
(* ================================================================== *)

Section Loops.

Lemma res_fold_app {X S : Type} (body : X -> S -> Res S) (l1 l2 : list X) (s : S) :
  res_fold body (l1 ++ l2) s
  = res_bind (res_fold body l1 s) (res_fold body l2).
Proof.
  revert s. induction l1 as [| x l1 IH]; intros s; simpl; [reflexivity |].
  destruct (body x s); simpl; [apply IH | reflexivity].
Qed.

Lemma arange_S (n : nat) :
  arange (Z.of_nat (S n)) = arange (Z.of_nat n) ++ [Z.of_nat n].
Proof.
  unfold arange. rewrite !Nat2Z.id, seq_S, map_app. reflexivity.
Qed.

Lemma done_upto_0 {X : Type} (g : X -> X) (l : list X) : done_upto g 0 l = l.
Proof. reflexivity. Qed.

Lemma done_upto_all {X : Type} (g : X -> X) (l : list X) :
  done_upto g (length l) l = map g l.
Proof.
  unfold done_upto. now rewrite firstn_all, drop_all, app_nil_r.
Qed.

Lemma done_upto_length {X : Type} (g : X -> X) (m : nat) (l : list X) :
  length (done_upto g m l) = length l.
Proof.
  unfold done_upto.
  rewrite length_app, length_map, length_take, length_drop. lia.
Qed.

Lemma done_upto_lookup {X : Type} (g : X -> X) (m : nat) (l : list X) :
  done_upto g m l !! m = l !! m.
Proof.
  unfold done_upto. destruct (decide (m <= length l)%nat) as [Hle | Hgt].
  - rewrite lookup_app_r; rewrite length_map, length_take; [| lia].
    rewrite lookup_drop. f_equal. lia.
  - rewrite take_ge, drop_ge, app_nil_r by lia.
    rewrite !lookup_ge_None_2; [reflexivity | lia | rewrite length_map; lia].
Qed.

Lemma done_upto_step {X : Type} (g : X -> X) (m : nat) (l : list X) (x : X) :
  l !! m = Some x -> <[m := g x]> (done_upto g m l) = done_upto g (S m) l.
Proof.
  intros H. pose proof (lookup_lt_Some _ _ _ H) as Hlt.
  unfold done_upto.
  rewrite insert_app_r_alt; rewrite length_map, length_take; [| lia].
  replace (m - m `min` length l)%nat with 0%nat by lia.
  rewrite (drop_S _ _ _ H). cbn [insert list_insert].
  rewrite (take_S_r _ _ _ H), map_app, <- app_assoc. reflexivity.
Qed.
End Loops.

Section ComptonY.
Context {lib : Numpy} {env : Env}.
Local Open Scope float_scope.

Lemma setitem_nonneg {X : Type} (l : list X) (k : nat) (x : X) :
  (k < length l)%nat -> setitem l (Z.of_nat k) x = Ok (<[k := x]> l).
Proof.
  intros H. unfold setitem. rewrite np_index_nonneg by lia.
  simpl. now rewrite Nat2Z.id.
Qed.

Lemma getitem_nat {X : Type} (l : list X) (k : nat) (x : X) :
  l !! k = Some x -> getitem l (Z.of_nat k) = Ok x.
Proof.
  intros H. apply getitem_lookup; [lia | now rewrite Nat2Z.id].
Qed.

Lemma solve_pixel_step frequency (T Y : Arr2) (i k : nat) (rowT rowY : list float)
    (dt : float) :
  T !! i = Some rowT -> rowT !! k = Some dt ->
  Y !! i = Some rowY -> (k < length rowY)%nat ->
  solve_pixel frequency T (Z.of_nat i) (Z.of_nat k) Y
  = Ok (<[i := <[k := solved_pixel frequency dt]> rowY]> Y).
Proof.
  intros HT Hdt HY Hk. unfold solve_pixel, getitem2, setitem2.
  rewrite (getitem_nat T i rowT HT). simpl.
  rewrite (getitem_nat rowT k dt Hdt). simpl.
  rewrite (getitem_nat Y i rowY HY). simpl.
  rewrite setitem_nonneg by assumption. simpl.
  rewrite setitem_nonneg by (eapply lookup_lt_Some; eassumption).
  reflexivity.
Qed.

(** The inner loop over the first [m] pixels of row [i]. *)
Lemma row_loop frequency (T Y : Arr2) (i m : nat) (rowT : list float) :
  T !! i = Some rowT -> Y !! i = Some rowT -> (m <= length rowT)%nat ->
  res_fold (fun k Y => solve_pixel frequency T (Z.of_nat i) k Y)
           (arange (Z.of_nat m)) Y
  = Ok (<[i := done_upto (solved_pixel frequency) m rowT]> Y).
Proof.
  intros HT HY. induction m as [| m IH]; intros Hm.
  - change (arange (Z.of_nat 0)) with (@nil Z). cbn [res_fold].
    rewrite done_upto_0. now rewrite (list_insert_id Y i rowT HY).
  - rewrite arange_S, res_fold_app, IH by lia. cbn [res_bind res_fold].
    destruct (lookup_lt_is_Some_2 rowT m ltac:(lia)) as [dt Hdt].
    rewrite (solve_pixel_step frequency T _ i m rowT
               (done_upto (solved_pixel frequency) m rowT) dt); try assumption.
    + cbn [res_bind res_fold].
      rewrite list_insert_insert_eq, (done_upto_step _ _ _ _ Hdt). reflexivity.
    + apply list_lookup_insert_eq. eapply lookup_lt_Some; eassumption.
    + rewrite done_upto_length. lia.
Qed.

(** The two loops over a square map. *)
Lemma rows_loop frequency (T : Arr2) (n m : nat) :
  square n T -> (m <= n)%nat ->
  res_fold (fun i Y =>
              res_fold (fun k Y => solve_pixel frequency T i k Y)
                       (arange (Z.of_nat n)) Y)
           (arange (Z.of_nat m)) T
  = Ok (done_upto (map (solved_pixel frequency)) m T).
Proof.
  intros [Hlen Hrows]. induction m as [| m IH]; intros Hm.
  - reflexivity.
  - rewrite arange_S, res_fold_app, IH by lia. cbn [res_bind res_fold].
    destruct (lookup_lt_is_Some_2 T m ltac:(lia)) as [rowT HT].
    assert (Hrow : length rowT = n).
    { rewrite Forall_forall in Hrows. apply Hrows.
      eapply list_elem_of_lookup_2. exact HT. }
    rewrite (row_loop frequency T _ m n rowT HT); [| | lia].
    + cbn [res_bind res_fold]. rewrite <- Hrow, done_upto_all.
      now rewrite (done_upto_step _ _ _ _ HT).
    + now rewrite done_upto_lookup.
Qed.

Lemma compton_y_square frequency (nx : Z) (T : Arr2) :
  square (Z.to_nat nx) T ->
  compton_y frequency nx T = Ok (arr2_map (solved_pixel frequency) T).
Proof.
  intros Hsq. unfold compton_y.
  assert (E : arange nx = arange (Z.of_nat (Z.to_nat nx))).
  { unfold arange. now rewrite Nat2Z.id. }
  rewrite E, (rows_loop frequency T (Z.to_nat nx) (Z.to_nat nx) Hsq) by lia.
  destruct Hsq as [<- _]. now rewrite done_upto_all.
Qed.

Lemma chunks_shape {X : Type} (rows w : nat) (l : list X) :
  length l = (rows * w)%nat ->
  length (chunks rows w l) = rows
  /\ Forall (fun r => length r = w) (chunks rows w l).
Proof.
  revert l. induction rows as [| rows IH]; intros l Hl; cbn [chunks].
  - split; [reflexivity | constructor].
  - destruct (IH (drop w l)) as [H1 H2]; [rewrite length_drop; lia |].
    split; [cbn; now rewrite H1 |].
    constructor; [rewrite length_take; lia | exact H2].
Qed.

Lemma reshape_square (nx : Z) (g a : Arr2) :
  reshape nx g = Ok a -> (0 <= nx)%Z /\ square (Z.to_nat nx) a.
Proof.
  unfold reshape.
  destruct ((0 <=? nx)%Z && (Z.of_nat (length (concat g)) =? nx * nx)%Z) eqn:E;
    [| discriminate].
  intros H. injection H as <-.
  apply andb_prop in E as [E1 E2].
  split; [lia |]. apply chunks_shape. nia.
Qed.

Lemma arr2_map_square (f : float -> float) (n : nat) (a : Arr2) :
  square n a -> square n (arr2_map f a).
Proof.
  intros [H1 H2]. unfold square, arr2_map. rewrite length_map. split; [exact H1 |].
  clear H1. induction H2 as [| row a Hrow _ IH]; cbn; [constructor |].
  constructor; [now rewrite length_map | exact IH].
Qed.

Lemma secondary_map_run amp res seed (s : RNG) nx T s' tr :
  returns (secondary_map amp res seed) s (nx, T) s' tr ->
  box_pixels 3000 res = Ok nx /\ (0 <= nx)%Z /\ square (Z.to_nat nx) T.
Proof.
  intros H. unfold secondary_map in H.
  run_inv H. apply returns_seed_inv in Hrun as (-> & ->).
  run_inv H. apply returns_lift_inv in Hrun as (Hcl & -> & ->).
  run_inv H. apply returns_lift_inv in Hrun as (Hnx & -> & ->).
  run_inv H. apply returns_gaussian_inv in Hrun as (Hg & ->).
  run_inv H. apply returns_lift_inv in Hrun as (Hre & -> & ->).
  apply returns_ret_inv in H as (H & _ & _). injection H as -> ->.
  apply reshape_square in Hre as [Hpos Hsq].
  auto using arr2_map_square.
Qed.

Lemma lookup_map {X Y : Type} (f : X -> Y) (l : list X) (n : nat) :
  map f l !! n = option_map f (l !! n).
Proof.
  revert n. induction l as [| x l IH]; intros [| n]; cbn; auto.
Qed.

Lemma getitem_map {X Y : Type} (f : X -> Y) (l : list X) (i : Z) (x : X) :
  getitem l i = Ok x -> getitem (map f l) i = Ok (f x).
Proof.
  unfold getitem. rewrite length_map.
  destruct (np_index (length l) i) as [n | e]; [| discriminate]. cbn.
  rewrite lookup_map. destruct (l !! n); [| discriminate].
  intros H. injection H as ->. reflexivity.
Qed.

Lemma getitem2_map (f : float -> float) (a : Arr2) (i k : Z) (v : float) :
  getitem2 a i k = Ok v -> getitem2 (arr2_map f a) i k = Ok (f v).
Proof.
  unfold getitem2, arr2_map.
  destruct (getitem a i) as [row | e] eqn:E; [| discriminate]. cbn.
  intros H. rewrite (getitem_map (map f) a i row E). cbn.
  now apply getitem_map.
Qed.

Lemma getitem2_square (n : nat) (a : Arr2) (i k : Z) :
  square n a -> (0 <= i < Z.of_nat n)%Z -> (0 <= k < Z.of_nat n)%Z ->
  exists v, getitem2 a i k = Ok v.
Proof.
  intros [H1 H2] Hi Hk.
  destruct (lookup_lt_is_Some_2 a (Z.to_nat i) ltac:(lia)) as [row Hrow].
  assert (Hlen : length row = n).
  { rewrite Forall_forall in H2. apply H2.
    eapply list_elem_of_lookup_2. exact Hrow. }
  destruct (lookup_lt_is_Some_2 row (Z.to_nat k) ltac:(lia)) as [v Hv].
  exists v. apply (getitem2_lookup a i k row v); (lia || assumption).
Qed.

Lemma create_tsz_map_of_temperature res seed (s : RNG) (nx : Z) (TSZ_T : Arr2) :
  result (secondary_map 3.42e-12 res seed s) = Ok (nx, TSZ_T) ->
  result (create_tsz_map res seed s) = Ok (arr2_map (solved_pixel 143e9) TSZ_T).
Proof.
  intros Hsec. pose proof Hsec as Hrun.
  apply returns_result, secondary_map_run in Hrun as (_ & _ & Hsq).
  unfold create_tsz_map. rewrite result_bind, Hsec.
  cbn [lift result]. now apply compton_y_square.
Qed.

Lemma mul_nan_r (x : float) : is_nan (x * nan) = true.
Proof.
  apply is_nan_SF. rewrite FloatAxioms.mul_spec.
  replace (Prim2SF nan) with S754_nan by reflexivity.
  destruct (Prim2SF x); reflexivity.
Qed.

Lemma sub_nan_r (x y : float) : is_nan y = true -> is_nan (x - y) = true.
Proof.
  intros H. apply is_nan_SF. rewrite FloatAxioms.sub_spec, (SF_is_nan _ H).
  destruct (Prim2SF x); reflexivity.
Qed.

Lemma nan_not_within (tol x : float) : is_nan x = true -> (abs x <=? tol) = false.
Proof.
  intros H. rewrite FloatAxioms.leb_spec, FloatAxioms.abs_spec, (SF_is_nan _ H).
  reflexivity.
Qed.

(** Where the temperature is a NaN the residual is a NaN at every [y]. *)
Lemma func_nan (frequency y dt : float) :
  is_nan dt = true -> is_nan (func frequency y dt) = true.
Proof.
  intros H. unfold func. apply sub_nan_r. unfold d_b. cbn [nmul F64].
  apply is_nan_SF. rewrite FloatAxioms.mul_spec, (SF_is_nan _ H).
  destruct (Prim2SF (d_b_factor dt frequency)); reflexivity.
Qed.

(** C3 (amended).  [fsolve] solving within [tol] the problems on which it
    converges (its contract): once the tSZ temperature map is built,
    [create_tsz_map] returns; every pixel [(i, k)] of the temperature map has
    a value [dt], and the Compton-y map holds at [(i, k)] what the
    root-finder, started at [y = 0], returns for
    [classical_tsz(y, 143 GHz) - d_b(dt, 143 GHz) = 0].  At every pixel on
    whose equation the root-finder converges, the stored [y] satisfies
    [classical_tsz(y, 143 GHz) ~= d_b(dt, 143 GHz)] within [tol]; a pixel
    whose temperature is a NaN is never one of them. *)
Theorem compton_y_pixels res seed (s : RNG) (nx : Z) (TSZ_T : Arr2) (tol : float)
    (C : (float -> float) -> float -> Prop) :
  fsolve_converges env tol C ->
  result (secondary_map 3.42e-12 res seed s) = Ok (nx, TSZ_T) ->
  exists TSZ_Y,
    result (create_tsz_map res seed s) = Ok TSZ_Y
    /\ (forall i k : Z, (0 <= i < nx)%Z -> (0 <= k < nx)%Z ->
          exists dt, getitem2 TSZ_T i k = Ok dt)
    /\ (forall (i k : Z) (dt : float),
          getitem2 TSZ_T i k = Ok dt ->
          exists y,
            getitem2 TSZ_Y i k = Ok y
            /\ y = fsolve (fun y => func 143e9 y dt) 0
            /\ (C (fun y => func 143e9 y dt) 0 ->
                (abs (classical_tsz y 143e9 - d_b dt 143e9) <=? tol) = true)
            /\ (is_nan dt = true -> ~ C (fun y => func 143e9 y dt) 0)).
Proof.
  intros Hfs Hsec.
  pose proof Hsec as Hrun.
  apply returns_result, secondary_map_run in Hrun as (Hnx & Hpos & Hsq).
  exists (arr2_map (solved_pixel 143e9) TSZ_T). split; [| split].
  - now apply (create_tsz_map_of_temperature res seed s nx).
  - intros i k Hi Hk. apply (getitem2_square (Z.to_nat nx)); (lia || assumption).
  - intros i k dt H. exists (solved_pixel 143e9 dt).
    split; [now apply getitem2_map |]. split; [reflexivity |]. split.
    + intros HC. exact (Hfs _ _ HC).
    + intros Hnan HC. specialize (Hfs _ _ HC). unfold root_within in Hfs.
      rewrite nan_not_within in Hfs; [discriminate | now apply func_nan].
Qed.
End ComptonY.

Section ComptonYRuns.
Local Open Scope float_scope.

(** A map of 3 by 3 pixels (3000 arcmin at 1000 arcmin per pixel) on the
    reference collaborators.  Every temperature is [40 * 1e-6], on which one
    secant step leaves a residual below [1e-30]: the two sides of the
    equation are about [1.5e-22]. *)
Lemma compton_y_pixels_witness :
  fsolve_converges ref_env 1e-30
    (fun f x0 => f = (fun y => func (lib := ref_numpy) 143e9 y (40 * 1e-6)) /\ x0 = 0)
  /\ result (secondary_map (lib := ref_numpy) (env := ref_env) 3.42e-12 1000 40 0%Z)
     = Ok (3%Z, constant_map 3 (40 * 1e-6))
  /\ exists TSZ_Y,
      result (create_tsz_map (lib := ref_numpy) (env := ref_env) 1000 40 0%Z) = Ok TSZ_Y
      /\ forall i k : Z, (0 <= i < 3)%Z -> (0 <= k < 3)%Z ->
           exists y,
             getitem2 TSZ_Y i k = Ok y
             /\ (abs (classical_tsz (N := @F64 ref_numpy) y 143e9
                      - d_b (N := @F64 ref_numpy) (40 * 1e-6) 143e9) <=? 1e-30) = true.
Proof.
  assert (Hfs : fsolve_converges ref_env 1e-30
                  (fun f x0 => f = (fun y => func (lib := ref_numpy) 143e9 y (40 * 1e-6))
                               /\ x0 = 0)).
  { intros f x0 [-> ->]. vm_compute. reflexivity. }
  assert (H : result (secondary_map (lib := ref_numpy) (env := ref_env) 3.42e-12 1000 40 0%Z)
              = Ok (3%Z, constant_map 3 (40 * 1e-6))) by (vm_compute; reflexivity).
  split; [exact Hfs |]. split; [exact H |].
  destruct (compton_y_pixels (lib := ref_numpy) (env := ref_env) 1000 40 0%Z 3
              (constant_map 3 (40 * 1e-6)) 1e-30 _ Hfs H) as (TSZ_Y & HY & _ & Hpix).
  exists TSZ_Y. split; [exact HY |].
  intros i k Hi Hk.
  assert (Hdt : getitem2 (constant_map 3 (40 * 1e-6)) i k = Ok (40 * 1e-6))
    by (apply getitem2_constant_map; lia).
  destruct (Hpix i k _ Hdt) as (y & Hy & _ & Hroot & _).
  exists y. split; [exact Hy |]. apply Hroot. split; reflexivity.
Defined.

(** C3 as stated fails: where the temperature of a pixel is a NaN, [d_b] is
    a NaN and no [y] solves the equation within any tolerance, whatever the
    root-finder and libm are. *)
Lemma compton_y_nan_pixel :
  ~ exists (lib : Numpy) (env : Env) (tol : float),
      forall (TSZ_T TSZ_Y : Arr2) (i k : Z) (dt y : float),
        compton_y 143e9 1 TSZ_T = Ok TSZ_Y ->
        getitem2 TSZ_T i k = Ok dt ->
        getitem2 TSZ_Y i k = Ok y ->
        root_within tol (fun y => func 143e9 y dt) y = true.
Proof.
  intros (lib & env & tol & H).
  specialize (H [[nan]] [[solved_pixel 143e9 nan]] 0%Z 0%Z nan
                (solved_pixel 143e9 nan) eq_refl eq_refl eq_refl).
  unfold root_within, func in H.
  rewrite nan_not_within in H; [discriminate |].
  apply sub_nan_r. unfold d_b. cbn [nmul F64]. apply mul_nan_r.
Qed.
End ComptonYRuns.

(* ================================================================== *)
(** * The sampled map coordinates and the size of the maps *)
(* ================================================================== *)

Section MapSize.
Context {lib : Numpy} {env : Env}.
Local Open Scope float_scope.

Lemma small_map_out_of_bounds (nx : Z) (map : Arr2) :
  square (Z.to_nat nx) map -> (nx <= 997)%Z -> some_draw_out_of_bounds map.
Proof.
  intros [Hlen _] Hnx. exists 997%Z, 2%Z. repeat split; try lia.
  unfold getitem2. rewrite getitem_past_end by lia. reflexivity.
Qed.

Lemma large_map_in_bounds (nx : Z) (map : Arr2) :
  square (Z.to_nat nx) map -> (998 <= nx)%Z -> every_draw_in_bounds map.
Proof.
  intros Hsq Hnx long lat Hlong Hlat.
  apply (getitem2_square (Z.to_nat nx)); (assumption || lia).
Qed.

Lemma create_ksz_map_run res seed (s : RNG) (ksz_map : Arr2) :
  result (create_ksz_map res seed s) = Ok ksz_map ->
  exists nx, box_pixels 3000 res = Ok nx /\ square (Z.to_nat nx) ksz_map.
Proof.
  intros H. apply returns_result in H. unfold create_ksz_map in H.
  run_inv H. destruct x as [nx T].
  apply returns_ret_inv in H as (-> & _ & _).
  apply secondary_map_run in Hrun as (Hnx & _ & Hsq). eauto.
Qed.

Lemma create_tsz_map_run res seed (s : RNG) (tsz_map : Arr2) :
  result (create_tsz_map res seed s) = Ok tsz_map ->
  exists nx, box_pixels 3000 res = Ok nx /\ square (Z.to_nat nx) tsz_map.
Proof.
  intros H. apply returns_result in H. unfold create_tsz_map in H.
  run_inv H. destruct x as [nx T].
  apply returns_lift_inv in H as (H & _ & _).
  apply secondary_map_run in Hrun as (Hnx & _ & Hsq).
  rewrite (compton_y_square _ _ _ Hsq) in H. injection H as <-.
  eauto using arr2_map_square.
Qed.
End MapSize.

(* ================================================================== *)
(** * [create_parameter_file] *)
(* ================================================================== *)

Section ParameterFile.
Context {lib : Numpy} {env : Env}.
Local Open Scope float_scope.

Lemma parameter_row_inv amp_cmb ksz_map tsz_map (i : nat) sl st long lat row :
  parameter_row amp_cmb ksz_map tsz_map i sl st long lat = Ok row ->
  exists a k t,
    row = [float_of_dec sl 0; float_of_dec st 0; a; k; t]
    /\ getitem amp_cmb (Z.of_nat i) = Ok a
    /\ background_subtracted ksz_map long lat = Ok k
    /\ background_subtracted tsz_map long lat = Ok t.
Proof.
  unfold parameter_row.
  destruct (background_subtracted ksz_map long lat) as [k |]; [| discriminate].
  destruct (background_subtracted tsz_map long lat) as [t |]; [| discriminate].
  destruct (getitem amp_cmb (Z.of_nat i)) as [a |]; [| discriminate].
  cbn. intros H. injection H as <-. eauto 10.
Qed.

Lemma catalog_coordinate (z : Z) :
  (0 <= z < 160)%Z -> in_catalog (float_of_dec z 0) = true.
Proof.
  intros Hz.
  assert (H : forallb (fun n => in_catalog (float_of_dec (Z.of_nat n) 0)) (seq 0 160) = true)
    by (vm_compute; reflexivity).
  rewrite forallb_forall in H.
  rewrite <- (Z2Nat.id z) by lia. apply H, in_seq. lia.
Qed.

Lemma randint_bounds (low high z : Z) (s s' : RNG) :
  randint_in_range env -> (low < high)%Z ->
  np_random_randint low high s = (z, s') -> (low <= z < high)%Z.
Proof.
  intros Hrand Hlt H. specialize (Hrand low high s Hlt). now rewrite H in Hrand.
Qed.

Lemma realization_run amp_cmb ksz_map tsz_map (i : nat) params (s : RNG) params' s' tr :
  randint_in_range env ->
  returns (realization amp_cmb ksz_map tsz_map i params) s params' s' tr ->
  exists row, params' = params ++ [row] /\ row_drawn amp_cmb ksz_map tsz_map i row.
Proof.
  intros Hrand H. unfold realization in H.
  run_inv H. apply returns_randint_inv in Hrun as (H1 & ->).
  run_inv H. apply returns_randint_inv in Hrun as (H2 & ->).
  run_inv H. apply returns_randint_inv in Hrun as (H3 & ->).
  run_inv H. apply returns_randint_inv in Hrun as (H4 & ->).
  run_inv H. apply returns_lift_inv in Hrun as (Hrow & -> & ->).
  apply returns_ret_inv in H as (-> & _ & _).
  eexists. split; [reflexivity |].
  apply (randint_bounds _ _ _ _ _ Hrand) in H1, H2, H3, H4; try lia.
  unfold row_drawn. eauto 10.
Qed.

Lemma realizations_run amp_cmb ksz_map tsz_map (k n : nat) params (s : RNG)
    params' s' tr :
  randint_in_range env ->
  returns (m_fold (realization amp_cmb ksz_map tsz_map) (seq k n) params)
          s params' s' tr ->
  exists rows,
    params' = params ++ rows /\ length rows = n
    /\ forall j row, rows !! j = Some row ->
                     row_drawn amp_cmb ksz_map tsz_map (k + j) row.
Proof.
  intros Hrand. revert k params s params' s' tr.
  induction n as [| n IH]; intros k params s params' s' tr H; cbn [seq m_fold] in H.
  - apply returns_ret_inv in H as (-> & _ & _). exists [].
    rewrite app_nil_r. repeat split; auto. intros j row Hj. discriminate Hj.
  - run_inv H. apply (realization_run _ _ _ _ _ _ _ _ _ Hrand) in Hrun as (row & -> & Hrow).
    apply IH in H as (rows & -> & Hlen & Hrows).
    exists (row :: rows). rewrite <- app_assoc. repeat split; [cbn; lia |].
    intros [| j] row' Hj; cbn in Hj.
    + injection Hj as <-. now rewrite Nat.add_0_r.
    + replace (k + S j)%nat with (S k + j)%nat by lia. now apply Hrows.
Qed.

Lemma create_parameter_file_run res (R : nat) (s : RNG) params :
  randint_in_range env ->
  result (create_parameter_file res R s) = Ok params ->
  exists amp_cmb ksz_map tsz_map,
    result (create_cmb_map res R 40 s) = Ok amp_cmb
    /\ result (create_ksz_map res 40 s) = Ok ksz_map
    /\ result (create_tsz_map res 40 s) = Ok tsz_map
    /\ length params = R
    /\ forall i row, params !! i = Some row ->
                     row_drawn amp_cmb ksz_map tsz_map i row.
Proof.
  intros Hrand H. apply returns_result in H. unfold create_parameter_file in H.
  run_inv H. rename x into amp_cmb.
  run_inv H. rename x into ksz_map.
  run_inv H. rename x into tsz_map.
  run_inv H. apply returns_ret_inv in H as (H & _ & _).
  apply (realizations_run _ _ _ _ _ _ _ _ _ _ Hrand) in Hrun2 as (rows & -> & Hlen & Hrows).
  exists amp_cmb, ksz_map, tsz_map.
  unfold returns in Hrun, Hrun0, Hrun1.
  cbn [app drop] in H. subst params.
  split; [now rewrite Hrun |].
  split; [transitivity (result (create_ksz_map res 40 s0));
          [f_equal; apply create_ksz_map_any_state | now rewrite Hrun0] |].
  split; [transitivity (result (create_tsz_map res 40 s1));
          [f_equal; apply create_tsz_map_any_state | now rewrite Hrun1] |].
  split; assumption.
Qed.

(** ** The default resolution: the whole run returns *)

Lemma secondary_map_total amp res seed (s : RNG) (nx : Z) :
  gaussian_fills_grid env -> box_pixels 3000 res = Ok nx -> (0 <= nx)%Z ->
  exists T, result (secondary_map amp res seed s) = Ok (nx, T).
Proof.
  intros Hgrid Hnx Hpos. unfold secondary_map.
  destruct (flat_cl_monopole lib amp) as (v & rest & Hcl & _).
  rewrite result_bind. cbn [seed_rng result rng_after].
  rewrite result_bind. cbn [lift result rng_after]. rewrite Hcl.
  rewrite result_bind. cbn [lift result rng_after]. rewrite Hnx.
  rewrite result_bind. unfold call_gaussian at 1 2.
  match goal with
  | |- context [make_gaussian_realisation ?mp ?el ?cl ?bl ?s] =>
      pose proof (Hgrid nx res el cl bl s Hpos) as Hg;
      destruct (make_gaussian_realisation mp el cl bl s) as [g s1]
  end.
  cbn [fst] in Hg. cbn [result rng_after].
  rewrite result_bind. cbn [lift result rng_after].
  unfold reshape. rewrite Hg, Z.eqb_refl.
  destruct (0 <=? nx)%Z eqn:E; [| lia]. cbn.
  eexists. reflexivity.
Qed.

Lemma create_ksz_map_total res seed (s : RNG) (nx : Z) :
  gaussian_fills_grid env -> box_pixels 3000 res = Ok nx -> (0 <= nx)%Z ->
  exists ksz_map, result (create_ksz_map res seed s) = Ok ksz_map.
Proof.
  intros Hgrid Hnx Hpos.
  destruct (secondary_map_total 3e-12 res seed s nx Hgrid Hnx Hpos) as [T HT].
  unfold create_ksz_map. rewrite result_bind, HT. eexists. reflexivity.
Qed.

Lemma create_tsz_map_total res seed (s : RNG) (nx : Z) :
  gaussian_fills_grid env -> box_pixels 3000 res = Ok nx -> (0 <= nx)%Z ->
  exists tsz_map, result (create_tsz_map res seed s) = Ok tsz_map.
Proof.
  intros Hgrid Hnx Hpos.
  destruct (secondary_map_total 3.42e-12 res seed s nx Hgrid Hnx Hpos) as [T HT].
  pose proof (create_tsz_map_of_temperature res seed s nx T HT). eauto.
Qed.

Lemma background_subtracted_total (map : Arr2) (long lat : Z) :
  every_draw_in_bounds map -> (2 <= long < 998)%Z -> (2 <= lat < 998)%Z ->
  exists amp, background_subtracted map long lat = Ok amp.
Proof.
  intros Hmap Hlong Hlat. destruct (Hmap long lat Hlong Hlat) as [v Hv].
  unfold background_subtracted. rewrite Hv. cbn. eauto.
Qed.

Lemma result_bind_returns {X Y : Type} (m : M X) (f : X -> M Y) (s s1 : RNG)
    (x : X) (tr : list Event) :
  returns m s x s1 tr -> result (bind m f s) = result (f x s1).
Proof. unfold returns, bind. now intros ->. Qed.

Lemma returns_randint (low high z : Z) (s s' : RNG) :
  np_random_randint low high s = (z, s') -> returns (randint low high) s z s' [].
Proof. unfold returns, randint. now intros ->. Qed.

Lemma realization_total amp_cmb ksz_map tsz_map (i : nat) params (s : RNG) :
  randint_in_range env ->
  every_draw_in_bounds ksz_map -> every_draw_in_bounds tsz_map ->
  (i < length amp_cmb)%nat ->
  exists params', result (realization amp_cmb ksz_map tsz_map i params s) = Ok params'.
Proof.
  intros Hrand Hksz Htsz Hi. unfold realization.
  destruct (np_random_randint 0 160 s) as [sl s1] eqn:E1.
  rewrite (result_bind_returns _ _ _ _ _ _ (returns_randint _ _ _ _ _ E1)).
  destruct (np_random_randint 0 160 s1) as [st s2] eqn:E2.
  rewrite (result_bind_returns _ _ _ _ _ _ (returns_randint _ _ _ _ _ E2)).
  destruct (np_random_randint 2 998 s2) as [long s3] eqn:E3.
  rewrite (result_bind_returns _ _ _ _ _ _ (returns_randint _ _ _ _ _ E3)).
  destruct (np_random_randint 2 998 s3) as [lat s4] eqn:E4.
  rewrite (result_bind_returns _ _ _ _ _ _ (returns_randint _ _ _ _ _ E4)).
  apply (randint_bounds _ _ _ _ _ Hrand) in E3, E4; try lia.
  rewrite result_bind. cbn [lift result rng_after]. unfold parameter_row.
  destruct (background_subtracted_total ksz_map long lat Hksz E3 E4) as [k ->].
  destruct (background_subtracted_total tsz_map long lat Htsz E3 E4) as [t ->].
  destruct (lookup_lt_is_Some_2 amp_cmb i Hi) as [a Ha].
  rewrite (getitem_nat amp_cmb i a Ha). cbn. eauto.
Qed.

Lemma realizations_total amp_cmb ksz_map tsz_map (k n : nat) params (s : RNG) :
  randint_in_range env ->
  every_draw_in_bounds ksz_map -> every_draw_in_bounds tsz_map ->
  (k + n <= length amp_cmb)%nat ->
  exists params',
    result (m_fold (realization amp_cmb ksz_map tsz_map) (seq k n) params s)
    = Ok params'.
Proof.
  intros Hrand Hksz Htsz. revert k params s.
  induction n as [| n IH]; intros k params s Hk; cbn [seq m_fold].
  - eexists. reflexivity.
  - rewrite result_bind.
    destruct (realization_total amp_cmb ksz_map tsz_map k params s Hrand Hksz Htsz
                ltac:(lia)) as [params1 ->].
    apply IH. lia.
Qed.

Lemma create_cmb_map_length res (R : nat) seed (s : RNG) anis :
  inpainting_has_centre env ->
  result (create_cmb_map res R seed s) = Ok anis -> length anis = R.
Proof.
  intros Hc H.
  apply returns_result, create_cmb_map_run in H
    as (cl & nl & g1 & g2 & outs & _ & _ & Hlen & Hanis & HP & _).
  specialize (HP has_centre Hc). apply estimates_of_centres in HP.
  rewrite <- Hanis in HP. apply Forall2_length in HP. lia.
Qed.

Lemma create_parameter_file_total (R : nat) (s : RNG) :
  randint_in_range env -> gaussian_fills_grid env ->
  inpainting_has_centre env -> camb_total_TT <> [] ->
  exists params, result (create_parameter_file 3 R s) = Ok params.
Proof.
  intros Hrand Hgrid Hcentre Hcamb.
  assert (H66 : box_pixels 200 3 = Ok 66%Z) by reflexivity.
  assert (H1000 : box_pixels 3000 3 = Ok 1000%Z) by reflexivity.
  unfold create_parameter_file.
  destruct (create_cmb_map_total 3 R 40 s 66 Hcamb H66 ltac:(lia)) as [amp_cmb Hamp].
  rewrite result_bind, Hamp.
  pose proof (create_cmb_map_length 3 R 40 s amp_cmb Hcentre Hamp) as Hlen.
  set (s1 := rng_after (create_cmb_map 3 R 40 s)).
  destruct (create_ksz_map_total 3 40 s1 1000 Hgrid H1000 ltac:(lia)) as [ksz_map Hksz].
  rewrite result_bind, Hksz.
  set (s2 := rng_after (create_ksz_map 3 40 s1)).
  destruct (create_tsz_map_total 3 40 s2 1000 Hgrid H1000 ltac:(lia)) as [tsz_map Htsz].
  rewrite result_bind, Htsz.
  set (s3 := rng_after (create_tsz_map 3 40 s2)).
  assert (Bk : every_draw_in_bounds ksz_map).
  { apply create_ksz_map_run in Hksz as (nx & Hnx & Hsq).
    rewrite H1000 in Hnx. injection Hnx as <-.
    apply (large_map_in_bounds 1000); [assumption | lia]. }
  assert (Bt : every_draw_in_bounds tsz_map).
  { apply create_tsz_map_run in Htsz as (nx & Hnx & Hsq).
    rewrite H1000 in Hnx. injection Hnx as <-.
    apply (large_map_in_bounds 1000); [assumption | lia]. }
  rewrite result_bind.
  destruct (realizations_total amp_cmb ksz_map tsz_map 0 R [[0; 0; 0; 0; 0]] s3
              Hrand Bk Bt ltac:(lia)) as [params ->].
  eexists. reflexivity.
Qed.

(** C4.  Draws being within their bounds (numpy's contract for [randint]):
    whenever [create_parameter_file] hands a matrix to [np.save], the matrix
    has exactly [R] rows (the all-zero first row is dropped); row [i] has 5
    entries and comes from draws [sides_long, sides_lat] of [[0, 160)], which
    are its first two entries, and [long, lat] of [[2, 998)], at which the
    kSZ and tSZ maps are read.  At the default resolution 3.0, with maps of
    the size asked for and inpainted maps that have a pixel (33, 33), it does
    hand a matrix over, for every [R]. *)
Theorem parameter_matrix_rows res (R : nat) (s : RNG) :
  randint_in_range env ->
  (forall params,
      result (create_parameter_file res R s) = Ok params ->
      length params = R
      /\ exists amp_cmb ksz_map tsz_map,
          result (create_cmb_map res R 40 s) = Ok amp_cmb
          /\ result (create_ksz_map res 40 s) = Ok ksz_map
          /\ result (create_tsz_map res 40 s) = Ok tsz_map
          /\ forall i row,
               params !! i = Some row ->
               row_drawn amp_cmb ksz_map tsz_map i row
               /\ length row = 5%nat
               /\ exists e0 e1,
                   row !! 0%nat = Some e0 /\ row !! 1%nat = Some e1
                   /\ in_catalog e0 = true /\ in_catalog e1 = true)
  /\ (gaussian_fills_grid env -> inpainting_has_centre env ->
      camb_total_TT <> [] ->
      exists params, result (create_parameter_file 3 R s) = Ok params).
Proof.
  intros Hrand. split.
  - intros params H.
    apply (create_parameter_file_run _ _ _ _ Hrand) in H
      as (amp_cmb & ksz_map & tsz_map & H1 & H2 & H3 & Hlen & Hrows).
    split; [exact Hlen |]. exists amp_cmb, ksz_map, tsz_map.
    repeat (split; [assumption |]).
    intros i row Hi. pose proof (Hrows i row Hi) as Hrow.
    split; [exact Hrow |].
    destruct Hrow as (sl & st & long & lat & Hsl & Hst & _ & _ & Hrow).
    apply parameter_row_inv in Hrow as (a & k & t & -> & _).
    split; [reflexivity |].
    exists (float_of_dec sl 0), (float_of_dec st 0).
    auto using catalog_coordinate.
  - intros Hgrid Hcentre Hcamb. now apply create_parameter_file_total.
Qed.
End ParameterFile.

Section ParameterFileRuns.
Local Open Scope float_scope.

Lemma ref_env_randint : randint_in_range ref_env.
Proof.
  intros low high s H. cbn.
  pose proof (Z.mod_pos_bound s (high - low) ltac:(lia)). lia.
Qed.

Lemma concat_replicate_length {X : Type} (m : nat) (l : list X) :
  length (concat (replicate m l)) = (m * length l)%nat.
Proof.
  induction m as [| m IH]; cbn; [reflexivity |].
  rewrite length_app, IH. reflexivity.
Qed.

Lemma ref_env_gaussian : gaussian_fills_grid ref_env.
Proof.
  intros nx dx el cl bl s Hnx. cbn. unfold constant_map.
  rewrite concat_replicate_length, length_replicate. nia.
Qed.

Lemma ref_env_centre : inpainting_has_centre ref_env.
Proof.
  intros sim_map a sg s. cbn. split; eexists; apply getitem2_constant_map; lia.
Qed.

(** Two realizations at 3.0 arcmin, on the reference collaborators. *)
Lemma parameter_matrix_rows_witness :
  randint_in_range ref_env
  /\ exists params,
      result (create_parameter_file (lib := ref_numpy) (env := ref_env) 3 2 0%Z)
      = Ok params
      /\ length params = 2%nat.
Proof.
  split; [exact ref_env_randint |].
  destruct (parameter_matrix_rows (lib := ref_numpy) (env := ref_env) 3 2 0%Z
              ref_env_randint) as [Hrows Htotal].
  destruct (Htotal ref_env_gaussian ref_env_centre ltac:(discriminate))
    as [params Hparams].
  exists params. split; [exact Hparams |].
  exact (proj1 (Hrows params Hparams)).
Defined.

(** Three realizations at 3.0 arcmin, on the reference collaborators. *)
Lemma composite_map_built_once_witness :
  inpainting_reads_only ref_env
  /\ @camb_total_TT ref_env <> []
  /\ box_pixels 200 3 = Ok 66%Z
  /\ exists cl_tt nl cmb_map noise_map outs,
      length outs = 3%nat
      /\ events (create_cmb_map (lib := ref_numpy) (env := ref_env) 3 3 40 0%Z)
         = [EvGaussian cl_tt true cmb_map; EvGaussian nl false noise_map;
            EvCovariance]
           ++ map (EvInpainting (arr3_add [cmb_map] [noise_map])) outs.
Proof.
  assert (H1 : @camb_total_TT ref_env <> []) by discriminate.
  assert (H2 : box_pixels 200 3 = Ok 66%Z) by reflexivity.
  split; [exact ref_env_reads_only | split; [exact H1 | split; [exact H2 |]]].
  exact (composite_map_built_once (lib := ref_numpy) (env := ref_env) 3 3 40 0%Z 66
           ref_env_reads_only H1 H2 ltac:(lia)).
Defined.
End ParameterFileRuns.

(* ================================================================== *)
(** * The brightness functions where [np.exp] leaves the floats *)
(* ================================================================== *)

Section SpectralEdges.
Local Open Scope float_scope.

Lemma nan_or_inf_mul_l (x y : float) : nan_or_inf x -> nan_or_inf (x * y).
Proof.
  unfold nan_or_inf. rewrite FloatAxioms.mul_spec.
  destruct (Prim2SF x), (Prim2SF y); simpl; tauto.
Qed.

Lemma nan_or_inf_div_zero (x : float) : nan_or_inf (x / (1 - 1)).
Proof.
  unfold nan_or_inf. rewrite FloatAxioms.div_spec.
  replace (Prim2SF (1 - 1)) with (S754_zero false) by reflexivity.
  destruct (Prim2SF x); simpl; tauto.
Qed.

(** X12.  Where [np.exp(x_b)] is exactly 1 (a frequency of zero, or one so low that
    [x_b] is below half an ulp of 1), [np.exp(x_b) - 1] is zero and
    [classical_tsz] divides by it: the value is an infinity or a NaN, whatever
    [y] is. *)
Theorem classical_tsz_low_frequency (lib : Numpy) (y nu : float) :
  np_exp (x_b nu) = 1 -> nan_or_inf (classical_tsz y nu).
Proof.
  intros H. unfold classical_tsz. cbn [nmul ndiv nadd nsub nexp dec F64].
  rewrite H.
  replace (float_of_dec 1 0) with 1 by reflexivity.
  apply nan_or_inf_mul_l, nan_or_inf_mul_l, nan_or_inf_mul_r, nan_or_inf_div_zero.
Qed.

Lemma classical_tsz_low_frequency_witness :
  np_exp (Numpy := ref_numpy) (x_b (N := @F64 ref_numpy) 0) = 1
  /\ nan_or_inf (classical_tsz (N := @F64 ref_numpy) 1 0).
Proof.
  split; [vm_compute; reflexivity |].
  apply (classical_tsz_low_frequency ref_numpy 1 0). vm_compute; reflexivity.
Defined.
End SpectralEdges.

Section Overflow.
Local Open Scope float_scope.

Lemma is_nan_mul_l (x y : float) : is_nan x = true -> is_nan (x * y) = true.
Proof.
  intros H. apply is_nan_SF. rewrite FloatAxioms.mul_spec, (SF_is_nan _ H).
  reflexivity.
Qed.

Lemma is_nan_mul_r (x y : float) : is_nan y = true -> is_nan (x * y) = true.
Proof.
  intros H. apply is_nan_SF. rewrite FloatAxioms.mul_spec, (SF_is_nan _ H).
  destruct (Prim2SF x); reflexivity.
Qed.

(** A float that is at least 710 is a positive number or [+inf]. *)
Lemma above_710_SF (x : float) :
  (710 <=? x) = true ->
  Prim2SF x = S754_infinity false \/ exists m e, Prim2SF x = S754_finite false m e.
Proof.
  rewrite FloatAxioms.leb_spec.
  assert (H : exists m e, Prim2SF 710 = S754_finite false m e)
    by (vm_compute; eauto).
  destruct H as (m0 & e0 & ->).
  destruct (Prim2SF x) as [s | s | | s m e]; cbn; try discriminate.
  - destruct s; [discriminate | auto].
  - destruct s; [discriminate | eauto].
Qed.

Lemma overflow_ratio_nan (x : float) :
  (710 <=? x) = true -> is_nan ((x * infinity) / (infinity - 1)) = true.
Proof.
  intros H. apply is_nan_SF.
  rewrite FloatAxioms.div_spec, FloatAxioms.mul_spec, FloatAxioms.sub_spec.
  replace (Prim2SF infinity) with (S754_infinity false) by reflexivity.
  assert (H1 : exists m e, Prim2SF 1 = S754_finite false m e)
    by (vm_compute; eauto).
  destruct H1 as (m1 & e1 & ->).
  destruct (above_710_SF x H) as [-> | (m & e & ->)]; reflexivity.
Qed.

(** X13.  Where [np.exp] overflows ([x_b >= 710], frequencies above about 40 THz),
    [classical_tsz] is [inf / inf], a NaN, whatever [y] is; where the [x] of
    [d_b] is at least 710, [d_b] is a NaN or an infinity, whatever [dt]
    is. *)
Theorem brightness_overflow (lib : Numpy) (y dt nu : float) :
  exp_overflows lib ->
  ((710 <=? x_b nu) = true -> is_nan (classical_tsz y nu) = true)
  /\ ((710 <=? (h_p / (k_b * (TCMB / (dec 1 0 + dt))) * nu)%num) = true ->
      nan_or_inf (d_b dt nu)).
Proof.
  intros Hexp. split; intros H.
  - unfold classical_tsz. cbn [nmul ndiv nadd nsub nexp dec F64].
    rewrite (Hexp _ H).
    replace (float_of_dec 1 0) with 1 by reflexivity.
    apply is_nan_mul_l, is_nan_mul_l, is_nan_mul_r, overflow_ratio_nan, H.
  - unfold d_b, d_b_factor.
    cbn [nmul ndiv nadd nsub nexp np_pow py_pow dec F64] in H |- *.
    rewrite (Hexp _ H).
    apply nan_or_inf_mul_l, nan_or_inf_div_l, nan_or_inf_mul_r,
      nan_or_inf_div_l, nan_or_inf_mul_r.
    exact I.
Qed.

Lemma ref_exp_overflows : exp_overflows ref_numpy.
Proof. intros x H. cbn. unfold ref_exp. now rewrite H. Qed.

(** At 100 THz. *)
Lemma brightness_overflow_witness :
  exp_overflows ref_numpy
  /\ is_nan (classical_tsz (N := @F64 ref_numpy) 1 1e14) = true
  /\ nan_or_inf (d_b (N := @F64 ref_numpy) 1e-6 1e14).
Proof.
  split; [exact ref_exp_overflows |].
  destruct (brightness_overflow ref_numpy 1 1e-6 1e14 ref_exp_overflows) as [H1 H2].
  split; [apply H1 | apply H2]; vm_compute; reflexivity.
Defined.

End Overflow.

(* ================================================================== *)
(** * The brightness functions in exact arithmetic *)
(* ================================================================== *)

Section ExactBrightness.
Local Open Scope R_scope.

Lemma classical_tsz_homogeneous (y nu : R) :
  classical_tsz y nu = y * classical_tsz 1 nu.
Proof.
  unfold classical_tsz. cbn [nmul ndiv nadd nsub nexp dec Exact]. ring.
Qed.

(** X14.  In exact arithmetic [classical_tsz] is linear in [y], so the equation
    [create_tsz_map] solves at a pixel, [classical_tsz(y, nu) - d_b(dt, nu) = 0],
    has exactly one root, [d_b(dt, nu) / classical_tsz(1, nu)], at every
    frequency where [classical_tsz(1, nu)] is not zero. *)
Theorem tsz_equation_unique_root (y dt nu : R) :
  classical_tsz 1 nu <> 0 ->
  classical_tsz y nu - d_b dt nu = 0 <-> y = d_b dt nu / classical_tsz 1 nu.
Proof.
  intros H. rewrite (classical_tsz_homogeneous y nu). split.
  - intros E. field_simplify_eq; [lra | exact H].
  - intros ->. field. exact H.
Qed.

(** At 143 GHz, the frequency of [create_tsz_map], where
    [x_b = 947527724 / 376227125], about 2.52. *)
Lemma tsz_equation_unique_root_witness :
  classical_tsz 1 143e9 <> 0
  /\ (classical_tsz 0 143e9 - d_b 0 143e9 = 0
      <-> 0 = d_b 0 143e9 / classical_tsz 1 143e9).
Proof.
  assert (Hk : 0 < k_b) by (apply real_of_dec_pos; lia).
  assert (Ht : 0 < TCMB) by (apply real_of_dec_pos; lia).
  assert (Hc : 0 < c) by (apply real_of_dec_pos; lia).
  assert (Hx : x_b 143e9 = 947527724 / 376227125).
  { unfold x_b. cbn [nmul ndiv Exact].
    unfold h_p, k_b, TCMB. cbn [dec Exact]. unfold real_of_dec.
    cbn [powerRZ]. rewrite !pow_IZR.
    repeat match goal with
           | |- context [IZR (Z.pow ?a ?b)] =>
               let v := eval vm_compute in (Z.pow a b) in
               change (Z.pow a b) with v
           | |- context [IZR (Z.pow_pos ?a ?b)] =>
               let v := eval vm_compute in (Z.pow_pos a b) in
               change (Z.pow_pos a b) with v
           end.
    lra. }
  assert (He : 5 < exp (947527724 / 376227125)).
  { replace (947527724 / 376227125)
      with (473763862 / 376227125 + 473763862 / 376227125) by lra.
    rewrite exp_plus.
    pose proof (exp_ineq1 (473763862 / 376227125) ltac:(lra)). nra. }
  assert (Hnu : 0 < 143e9) by lra.
  assert (H : classical_tsz 1 143e9 <> 0).
  { unfold classical_tsz, bv. cbn [nmul ndiv nadd nsub nexp np_pow py_pow dec Exact].
    rewrite Hx, !real_of_dec_0.
    change (real_of_dec 299792458 0) with (c : R).
    change (real_of_dec 138065 (-28)) with (k_b : R).
    change (real_of_dec 2725 (-3)) with (TCMB : R).
    change (Pos.to_nat 2) with 2%nat.
    generalize dependent (exp (947527724 / 376227125)). intros e He.
    generalize dependent 143e9. intros nu _ Hnu.
    set (x := 947527724 / 376227125).
    assert (Hxb : 2 < x < 3) by (unfold x; lra).
    assert (H1 : 0 < x * e / (e - 1)) by (apply Rdiv_lt_0_compat; nra).
    assert (H2 : x * ((e + 1) / (e - 1)) - 4 < 0).
    { assert (x * ((e + 1) / (e - 1)) < 4); [| lra].
      apply (Rmult_lt_reg_r (e - 1)); [lra |].
      replace (x * ((e + 1) / (e - 1)) * (e - 1)) with (x * (e + 1)) by (field; lra).
      unfold x. lra. }
    assert (H3 : 0 < 2 * k_b * TCMB * (nu ^ 2 / c ^ 2) * (x / (e - 1))).
    { assert (0 < nu ^ 2 / c ^ 2)
        by (apply Rdiv_lt_0_compat; apply pow_lt; assumption).
      assert (0 < x / (e - 1)) by (apply Rdiv_lt_0_compat; lra).
      assert (0 < 2 * k_b * TCMB) by nra.
      apply Rmult_lt_0_compat; [apply Rmult_lt_0_compat |]; assumption. }
    apply Rlt_not_eq.
    apply Ropp_lt_cancel. rewrite Ropp_0.
    replace (- (1 * (x * e / (e - 1)) * (x * ((e + 1) / (e - 1)) - 4)
               * (2 * k_b * TCMB * (nu ^ 2 / c ^ 2) * (x / (e - 1)))))
      with ((x * e / (e - 1)) * (- (x * ((e + 1) / (e - 1)) - 4))
            * (2 * k_b * TCMB * (nu ^ 2 / c ^ 2) * (x / (e - 1))))
      by ring.
    apply Rmult_lt_0_compat; [apply Rmult_lt_0_compat |]; lra. }
  split; [exact H | exact (tsz_equation_unique_root 0 0 _ H)].
Defined.

(** X15.  In exact arithmetic, for [dt <> -1], [d_b(dt, nu)] is [dt] times
    [2 h^2 nu^4 / (c^2 k_B T^2) * e^x / (e^x - 1)^2] with
    [T = TCMB / (1 + dt)] and [x = h nu / (k_B T)]: the derivative of Planck's
    law with respect to the temperature, at [T], times [dt]. *)
Theorem d_b_closed_form (dt nu : R) :
  1 + dt <> 0 ->
  let T := TCMB / (1 + dt) in
  let x := h_p * nu / (k_b * T) in
  d_b dt nu
  = 2 * h_p ^ 2 * nu ^ 4 / (c ^ 2 * k_b * T ^ 2)
    * (exp x / (exp x - 1) ^ 2) * dt.
Proof.
  intros Hdt T x.
  assert (Hh : (h_p : R) <> 0) by (apply Rgt_not_eq, real_of_dec_pos; lia).
  assert (Hk : (k_b : R) <> 0) by (apply Rgt_not_eq, real_of_dec_pos; lia).
  assert (Ht : (TCMB : R) <> 0) by (apply Rgt_not_eq, real_of_dec_pos; lia).
  assert (Hc : (c : R) <> 0) by (apply Rgt_not_eq, real_of_dec_pos; lia).
  unfold d_b, d_b_factor. cbn [nmul ndiv nadd nsub nexp np_pow py_pow dec Exact].
  rewrite !real_of_dec_0.
  change (real_of_dec 299792458 0) with (c : R).
  change (real_of_dec 6626068 (-40)) with (h_p : R).
  change (real_of_dec 138065 (-28)) with (k_b : R).
  change (real_of_dec 2725 (-3)) with (TCMB : R).
  assert (HT : T <> 0).
  { unfold T. intros E. apply Rmult_integral in E. destruct E as [E|E]; [contradiction |].
    now apply Rinv_neq_0_compat in E. }
  fold T.
  replace (h_p / (k_b * T) * nu) with x by (unfold x; field; auto).
  generalize (exp x). intros e.
  change (Pos.to_nat 2) with 2%nat. change (Pos.to_nat 3) with 3%nat.
  change (Pos.to_nat 4) with 4%nat.
  replace (x ^ 4 * e / (e - 1) ^ 2) with (x ^ 4 * (e / (e - 1) ^ 2))
    by (unfold Rdiv; ring).
  generalize (e / (e - 1) ^ 2). intros q. unfold x.
  field. auto.
Qed.

Lemma d_b_closed_form_witness :
  1 + 0 <> 0
  /\ d_b 0 1
     = 2 * h_p ^ 2 * 1 ^ 4 / (c ^ 2 * k_b * (TCMB / (1 + 0)) ^ 2)
       * (exp (h_p * 1 / (k_b * (TCMB / (1 + 0))))
          / (exp (h_p * 1 / (k_b * (TCMB / (1 + 0)))) - 1) ^ 2) * 0.
Proof.
  assert (H : 1 + 0 <> 0) by lra.
  split; [exact H | exact (d_b_closed_form 0 1 H)].
Defined.
End ExactBrightness.

(* ================================================================== *)
(** * Resolutions that give no map *)
(* ================================================================== *)

Section Resolution.
Context {lib : Numpy} {env : Env}.
Local Open Scope float_scope.

Lemma box_pixels_zero (boxsize_am res : float) :
  (res =? 0) = true -> box_pixels boxsize_am res = Raise ZeroDivisionError.
Proof. intros H. unfold box_pixels, py_div. now rewrite H. Qed.

Lemma box_pixels_nan (boxsize_am res : float) :
  is_nan res = true -> box_pixels boxsize_am res = Raise ValueError.
Proof.
  intros H. unfold box_pixels, py_div. rewrite (is_nan_not_zero _ H).
  cbn [res_bind]. unfold py_int.
  rewrite FloatAxioms.div_spec, (SF_is_nan _ H).
  destruct (Prim2SF boxsize_am); reflexivity.
Qed.

(** An exception of [int(boxsize_am / dx)] ends the method before anything is
    drawn. *)
Lemma secondary_map_box_raises amp res seed (s : RNG) (e : exn) :
  box_pixels 3000 res = Raise e ->
  secondary_map amp res seed s = mkOut (Raise e) (np_random_seed seed) [].
Proof.
  intros H. unfold secondary_map.
  destruct (flat_cl_monopole lib amp) as (v & rest & Hcl & _).
  unfold bind at 1. cbn [seed_rng result rng_after events].
  unfold bind at 1. cbn [lift result rng_after events]. rewrite Hcl.
  unfold bind at 1. cbn [lift result rng_after events]. rewrite H.
  reflexivity.
Qed.

Lemma create_ksz_map_box_raises res seed (s : RNG) (e : exn) :
  box_pixels 3000 res = Raise e ->
  create_ksz_map res seed s = mkOut (Raise e) (np_random_seed seed) [].
Proof.
  intros H. unfold create_ksz_map, bind.
  now rewrite (secondary_map_box_raises _ _ _ _ _ H).
Qed.

Lemma create_tsz_map_box_raises res seed (s : RNG) (e : exn) :
  box_pixels 3000 res = Raise e ->
  create_tsz_map res seed s = mkOut (Raise e) (np_random_seed seed) [].
Proof.
  intros H. unfold create_tsz_map, bind.
  now rewrite (secondary_map_box_raises _ _ _ _ _ H).
Qed.

Lemma create_cmb_map_box_raises res (R : nat) seed (s : RNG) (e : exn) :
  camb_total_TT <> [] -> box_pixels 200 res = Raise e ->
  create_cmb_map res R seed s = mkOut (Raise e) (np_random_seed seed) [].
Proof.
  intros Hcamb H. unfold create_cmb_map.
  destruct camb_total_TT as [| d dl] eqn:Ecamb; [congruence |].
  destruct (cl_of_dl_monopole lib d dl) as (v & rest & Hcl & _).
  unfold bind at 1. cbn [seed_rng result rng_after events].
  unfold bind at 1. cbn [lift result rng_after events]. rewrite Hcl.
  unfold bind at 1. cbn [lift result rng_after events]. rewrite H.
  reflexivity.
Qed.

Lemma create_parameter_file_box_raises res (R : nat) (s : RNG) (e : exn) :
  camb_total_TT <> [] -> box_pixels 200 res = Raise e ->
  create_parameter_file res R s = mkOut (Raise e) (np_random_seed 40) [].
Proof.
  intros Hcamb H. unfold create_parameter_file, bind.
  now rewrite (create_cmb_map_box_raises _ _ _ _ _ Hcamb H).
Qed.

(** X1.  A resolution of zero ([0.0] or [-0.0]): [boxsize_am / dx] raises
    [ZeroDivisionError] in every method, after the generator is seeded and
    before any collaborator that draws is called. *)
Theorem zero_resolution_raises res (R : nat) seed (s : RNG) :
  (res =? 0) = true ->
  create_ksz_map res seed s
  = mkOut (Raise ZeroDivisionError) (np_random_seed seed) []
  /\ create_tsz_map res seed s
     = mkOut (Raise ZeroDivisionError) (np_random_seed seed) []
  /\ (camb_total_TT <> [] ->
      create_cmb_map res R seed s
      = mkOut (Raise ZeroDivisionError) (np_random_seed seed) []
      /\ create_parameter_file res R s
         = mkOut (Raise ZeroDivisionError) (np_random_seed 40) []).
Proof.
  intros H.
  pose proof (box_pixels_zero 3000 res H) as H1.
  pose proof (box_pixels_zero 200 res H) as H2.
  split; [now apply create_ksz_map_box_raises |].
  split; [now apply create_tsz_map_box_raises |].
  intros Hcamb.
  split; [now apply create_cmb_map_box_raises
         | now apply create_parameter_file_box_raises].
Qed.

(** X2.  A resolution that is a NaN: [int(boxsize_am / dx)] raises [ValueError]
    in every method, before any collaborator that draws is called. *)
Theorem nan_resolution_raises res (R : nat) seed (s : RNG) :
  is_nan res = true ->
  create_ksz_map res seed s = mkOut (Raise ValueError) (np_random_seed seed) []
  /\ create_tsz_map res seed s
     = mkOut (Raise ValueError) (np_random_seed seed) []
  /\ (camb_total_TT <> [] ->
      create_cmb_map res R seed s
      = mkOut (Raise ValueError) (np_random_seed seed) []
      /\ create_parameter_file res R s
         = mkOut (Raise ValueError) (np_random_seed 40) []).
Proof.
  intros H.
  pose proof (box_pixels_nan 3000 res H) as H1.
  pose proof (box_pixels_nan 200 res H) as H2.
  split; [now apply create_ksz_map_box_raises |].
  split; [now apply create_tsz_map_box_raises |].
  intros Hcamb.
  split; [now apply create_cmb_map_box_raises
         | now apply create_parameter_file_box_raises].
Qed.

Lemma bind_ok {X Y : Type} (m : M X) (f : X -> M Y) (s s1 s2 : RNG) (x : X)
    (r : Res Y) (tr tr1 tr2 : list Event) :
  m s = mkOut (Ok x) s1 tr1 -> f x s1 = mkOut r s2 tr2 -> tr = tr1 ++ tr2 ->
  bind m f s = mkOut r s2 tr.
Proof. unfold bind. intros -> Hf ->. cbn. now rewrite Hf. Qed.

Lemma bind_raise {X Y : Type} (m : M X) (f : X -> M Y) (s s1 : RNG) (e : exn)
    (tr : list Event) :
  m s = mkOut (Raise e) s1 tr -> bind m f s = mkOut (Raise e) s1 tr.
Proof. unfold bind. now intros ->. Qed.

Lemma secondary_map_negative amp res seed (s : RNG) (nx : Z) :
  box_pixels 3000 res = Ok nx -> (nx < 0)%Z ->
  exists cl g s1,
    secondary_map amp res seed s
    = mkOut (Raise ValueError) s1 [EvGaussian cl true g].
Proof.
  intros H Hneg. unfold secondary_map.
  destruct (flat_cl_monopole lib amp) as (v & rest & Hcl & _).
  rewrite Hcl, H.
  destruct (make_gaussian_realisation (nx, nx, res, res) (arange 5051) (v :: rest)
              (Some (get_bl res (arange 5051) 1 (nx, nx, res, res)))
              (np_random_seed seed)) as [g s1] eqn:Eg.
  exists (v :: rest), g, s1.
  eapply bind_ok; [reflexivity | | reflexivity].
  eapply bind_ok; [reflexivity | | reflexivity].
  eapply bind_ok; [reflexivity | | reflexivity].
  eapply bind_ok; [unfold call_gaussian; rewrite Eg; reflexivity | | reflexivity].
  apply bind_raise. unfold lift, reshape.
  destruct (0 <=? nx)%Z eqn:E; [lia | reflexivity].
Qed.

(** X3.  A resolution that gives a negative number of pixels a side, [nx]:
    no method returns a map.  Where the collaborators that are handed [nx]
    return, [create_cmb_map] raises [ValueError] at [np.linspace], before
    anything is drawn, and [create_ksz_map] and [create_tsz_map] draw their
    realization and raise [ValueError] at [reshape(nx, nx)]. *)
Theorem negative_side_raises res (R : nat) seed (s : RNG) (nx nx' : Z) :
  box_pixels 3000 res = Ok nx -> (nx < 0)%Z ->
  box_pixels 200 res = Ok nx' -> (nx' < 0)%Z ->
  result (create_ksz_map res seed s) = Raise ValueError
  /\ length (events (create_ksz_map res seed s)) = 1%nat
  /\ result (create_tsz_map res seed s) = Raise ValueError
  /\ length (events (create_tsz_map res seed s)) = 1%nat
  /\ (camb_total_TT <> [] ->
      create_cmb_map res R seed s
      = mkOut (Raise ValueError) (np_random_seed seed) []).
Proof.
  intros H Hneg H' Hneg'.
  destruct (secondary_map_negative 3e-12 res seed s nx H Hneg)
    as (clk & gk & sk & Ek).
  destruct (secondary_map_negative 3.42e-12 res seed s nx H Hneg)
    as (clt & gt & st & Et).
  split; [| split; [| split; [| split]]].
  - unfold create_ksz_map, bind. now rewrite Ek.
  - unfold create_ksz_map, bind. now rewrite Ek.
  - unfold create_tsz_map, bind. now rewrite Et.
  - unfold create_tsz_map, bind. now rewrite Et.
  - intros Hcamb. unfold create_cmb_map.
    destruct camb_total_TT as [| d dl] eqn:Ecamb; [congruence |].
    destruct (cl_of_dl_monopole lib d dl) as (v & rest & Hcl & _).
    rewrite Hcl, H'.
    eapply bind_ok; [reflexivity | | reflexivity].
    eapply bind_ok; [reflexivity | | reflexivity].
    eapply bind_ok; [reflexivity | | reflexivity].
    apply bind_raise. unfold lift, linspace.
    destruct (nx' <? 0)%Z eqn:E; [reflexivity | lia].
Qed.
End Resolution.

Section ResolutionRuns.
Local Open Scope float_scope.

Lemma zero_resolution_raises_witness :
  create_ksz_map (lib := ref_numpy) (env := ref_env) 0 40 0%Z
  = mkOut (env := ref_env) (Raise ZeroDivisionError) 40%Z []
  /\ create_parameter_file (lib := ref_numpy) (env := ref_env) (-0) 2 0%Z
     = mkOut (env := ref_env) (Raise ZeroDivisionError) 40%Z [].
Proof.
  split.
  - exact (proj1 (zero_resolution_raises (lib := ref_numpy) (env := ref_env)
                    0 0 40 0%Z eq_refl)).
  - refine (proj2 (proj2 (proj2 (zero_resolution_raises (lib := ref_numpy) (env := ref_env)
                    (-0) 2 40 0%Z eq_refl)) _)).
    discriminate.
Defined.

Lemma nan_resolution_raises_witness :
  create_tsz_map (lib := ref_numpy) (env := ref_env) nan 40 0%Z
  = mkOut (env := ref_env) (Raise ValueError) 40%Z [].
Proof.
  exact (proj1 (proj2 (nan_resolution_raises (lib := ref_numpy) (env := ref_env)
                         nan 0 40 0%Z eq_refl))).
Defined.

Lemma negative_side_raises_witness :
  box_pixels 3000 (-3) = Ok (-1000)%Z
  /\ box_pixels 200 (-3) = Ok (-66)%Z
  /\ result (create_ksz_map (lib := ref_numpy) (env := ref_env) (-3) 40 0%Z)
     = Raise ValueError.
Proof.
  assert (H1 : box_pixels 3000 (-3) = Ok (-1000)%Z) by (vm_compute; reflexivity).
  assert (H2 : box_pixels 200 (-3) = Ok (-66)%Z) by (vm_compute; reflexivity).
  split; [exact H1 | split; [exact H2 |]].
  exact (proj1 (negative_side_raises (lib := ref_numpy) (env := ref_env)
                  (-3) 0 40 0%Z (-1000) (-66) H1 ltac:(lia) H2 ltac:(lia))).
Defined.
End ResolutionRuns.

(* ================================================================== *)
(** * The pixels of the kSZ and tSZ maps *)
(* ================================================================== *)

Section KszPixels.
Context {lib : Numpy} {env : Env}.
Local Open Scope float_scope.

Lemma chunks_lookup {X : Type} (rows w : nat) (l : list X) (i : nat) :
  (i < rows)%nat -> chunks rows w l !! i = Some (take w (drop (i * w) l)).
Proof.
  revert l i. induction rows as [| r IH]; intros l i Hi; [lia |].
  destruct i as [| i]; cbn [chunks].
  - reflexivity.
  - cbn [lookup list_lookup]. rewrite IH by lia. rewrite drop_drop.
    reflexivity.
Qed.

Lemma chunks_length {X : Type} (rows w : nat) (l : list X) :
  length (chunks rows w l) = rows.
Proof.
  revert l. induction rows as [| r IH]; intros l; cbn; [reflexivity |].
  now rewrite IH.
Qed.

Lemma chunks_entry {X : Type} (rows w : nat) (l : list X) (i k : nat) (row : list X) :
  (k < w)%nat -> chunks rows w l !! i = Some row ->
  row !! k = l !! (i * w + k)%nat.
Proof.
  intros Hk H.
  assert (Hi : (i < rows)%nat).
  { apply lookup_lt_Some in H. now rewrite chunks_length in H. }
  rewrite chunks_lookup in H by exact Hi. injection H as <-.
  rewrite lookup_take. destruct (decide (k < w)%nat); [| lia].
  now rewrite lookup_drop.
Qed.

(** What [secondary_map] has done when it returns. *)
Lemma secondary_map_pixels amp res seed (s : RNG) nx T s' tr :
  secondary_map amp res seed s = mkOut (Ok (nx, T)) s' tr ->
  exists cl g,
    box_pixels 3000 res = Ok nx /\ (0 <= nx)%Z
    /\ flat_cl amp = Ok cl
    /\ (exists v0, cl !! 0%nat = Some v0 /\ is_nan v0 = true)
    /\ make_gaussian_realisation (nx, nx, res, res) (arange 5051) cl
         (Some (get_bl res (arange 5051) 1 (nx, nx, res, res)))
         (np_random_seed seed) = (g, s')
    /\ tr = [EvGaussian cl true g]
    /\ Z.of_nat (length (concat g)) = (nx * nx)%Z
    /\ forall i k : Z,
         (0 <= i < nx)%Z -> (0 <= k < nx)%Z ->
         exists v, concat g !! Z.to_nat (i * nx + k) = Some v
                   /\ getitem2 T i k = Ok (v * 1e-6).
Proof.
  intros Hrun. change (returns (secondary_map amp res seed) s (nx, T) s' tr) in Hrun.
  unfold secondary_map in Hrun.
  run_inv Hrun. apply returns_seed_inv in Hrun0 as (-> & ->).
  run_inv Hrun. apply returns_lift_inv in Hrun0 as (Hcl & -> & ->).
  run_inv Hrun. apply returns_lift_inv in Hrun0 as (Hnx & -> & ->).
  run_inv Hrun. apply returns_gaussian_inv in Hrun0 as (Hg & ->).
  run_inv Hrun. apply returns_lift_inv in Hrun0 as (Hre & -> & ->).
  apply returns_ret_inv in Hrun as (Hx & -> & ->). injection Hx as <- ->.
  subst.
  match goal with
  | _ : flat_cl _ = Ok ?cl, _ : make_gaussian_realisation _ _ _ _ _ = (?g, _) |- _ =>
      exists cl, g
  end.
  unfold reshape in Hre.
  match type of Hre with
  | (if ?b then _ else _) = _ => destruct b eqn:E; [| discriminate]
  end.
  apply andb_prop in E as [E1 E2]. injection Hre as <-.
  apply Z.leb_le in E1. apply Z.eqb_eq in E2.
  split; [assumption |]. split; [assumption |]. split; [assumption |].
  split.
  { destruct (flat_cl_monopole lib amp) as (v0 & rest & E & Hnan).
    rewrite E in Hcl. injection Hcl as <-. exists v0. auto. }
  repeat (split; [first [assumption | reflexivity] |]).
  intros i k Hi Hk.
  match goal with
  | |- context [concat ?g !! _] => set (l := concat g) in *
  end.
  destruct (lookup_lt_is_Some_2 l (Z.to_nat (i * nx + k)) ltac:(nia)) as [v Hv].
  exists v. split; [exact Hv |].
  apply (getitem2_map (fun v => v * 1e-6) _ i k v).
  destruct (lookup_lt_is_Some_2 (chunks (Z.to_nat nx) (Z.to_nat nx) l) (Z.to_nat i))
    as [row Hrow]; [rewrite chunks_length; lia |].
  apply (getitem2_lookup _ i k row v); try lia; [exact Hrow |].
  assert (Hkw : (Z.to_nat k < Z.to_nat nx)%nat) by lia.
  rewrite (chunks_entry _ _ _ _ _ _ Hkw Hrow).
  rewrite <- Hv. f_equal. nia.
Qed.

(** X4.  Whenever [create_ksz_map] returns, it has made one call of
    [make_gaussian_realisation], in the generator state [np.random.seed(seed)]
    leaves, with the converted flat spectrum of amplitude [3e-12] and the
    beam, whose entry at [l = 0] is the NaN of the unguarded division; the
    realization has [nx * nx] values for
    [nx = int(3000. / angular_resolution)], and pixel [(i, k)] of the map is
    value [i * nx + k] of the realization times [1e-6]. *)
Theorem ksz_map_pixels res seed (s : RNG) (ksz_map : Arr2) :
  result (create_ksz_map res seed s) = Ok ksz_map ->
  exists nx cl g s1,
    box_pixels 3000 res = Ok nx /\ (0 <= nx)%Z
    /\ flat_cl 3e-12 = Ok cl
    /\ (exists v0, cl !! 0%nat = Some v0 /\ is_nan v0 = true)
    /\ make_gaussian_realisation (nx, nx, res, res) (arange 5051) cl
         (Some (get_bl res (arange 5051) 1 (nx, nx, res, res)))
         (np_random_seed seed) = (g, s1)
    /\ create_ksz_map res seed s = mkOut (Ok ksz_map) s1 [EvGaussian cl true g]
    /\ Z.of_nat (length (concat g)) = (nx * nx)%Z
    /\ forall i k : Z,
         (0 <= i < nx)%Z -> (0 <= k < nx)%Z ->
         exists v, concat g !! Z.to_nat (i * nx + k) = Some v
                   /\ getitem2 ksz_map i k = Ok (v * 1e-6).
Proof.
  unfold create_ksz_map, bind.
  destruct (secondary_map 3e-12 res seed s) as [[[nx T] | e] s1 tr] eqn:E;
    cbn [result rng_after events ret]; [| discriminate].
  intros H. injection H as <-.
  apply secondary_map_pixels in E
    as (cl & g & H1 & H2 & H3 & H4 & H5 & -> & H7 & H8).
  exists nx, cl, g, s1. auto 10.
Qed.

(** X16.  Whenever [create_tsz_map] returns, it has made one call of
    [make_gaussian_realisation], in the generator state [np.random.seed(seed)]
    leaves, with the converted flat spectrum of amplitude [3.42e-12] and the
    beam; solving draws nothing (the generator is left as the realization
    left it), and pixel [(i, k)] of the Compton-y map is what [fsolve],
    started at 0, returns for the temperature that is value [i * nx + k] of
    the realization times [1e-6]. *)
Theorem tsz_map_pixels res seed (s : RNG) (tsz_map : Arr2) :
  result (create_tsz_map res seed s) = Ok tsz_map ->
  exists nx cl g s1,
    box_pixels 3000 res = Ok nx /\ (0 <= nx)%Z
    /\ flat_cl 3.42e-12 = Ok cl
    /\ make_gaussian_realisation (nx, nx, res, res) (arange 5051) cl
         (Some (get_bl res (arange 5051) 1 (nx, nx, res, res)))
         (np_random_seed seed) = (g, s1)
    /\ create_tsz_map res seed s = mkOut (Ok tsz_map) s1 [EvGaussian cl true g]
    /\ Z.of_nat (length (concat g)) = (nx * nx)%Z
    /\ forall i k : Z,
         (0 <= i < nx)%Z -> (0 <= k < nx)%Z ->
         exists v,
           concat g !! Z.to_nat (i * nx + k) = Some v
           /\ getitem2 tsz_map i k
              = Ok (fsolve (fun y => func 143e9 y (v * 1e-6)) 0).
Proof.
  unfold create_tsz_map, bind.
  destruct (secondary_map 3.42e-12 res seed s) as [[[nx T] | e] s1 tr] eqn:E;
    cbn [result rng_after events lift]; [| discriminate].
  pose proof E as Hsq.
  change (returns (secondary_map 3.42e-12 res seed) s (nx, T) s1 tr) in Hsq.
  apply secondary_map_run in Hsq as (_ & _ & Hsq).
  rewrite (compton_y_square _ _ _ Hsq).
  intros H. injection H as <-.
  apply secondary_map_pixels in E
    as (cl & g & H1 & H2 & H3 & _ & H5 & -> & H7 & H8).
  exists nx, cl, g, s1.
  repeat (split; [first [assumption | reflexivity] |]).
  intros i k Hi Hk. destruct (H8 i k Hi Hk) as (v & Hv & Hpix).
  exists v. split; [exact Hv |].
  exact (getitem2_map (solved_pixel 143e9) T i k _ Hpix).
Qed.
End KszPixels.

Section KszPixelsRuns.
Local Open Scope float_scope.

Lemma ksz_map_pixels_witness :
  result (create_ksz_map (lib := ref_numpy) (env := ref_env) 300 40 0%Z)
  = Ok (constant_map 10 (40 * 1e-6))
  /\ exists nx cl g s1,
      box_pixels 3000 300 = Ok nx /\ (0 <= nx)%Z
      /\ flat_cl (lib := ref_numpy) 3e-12 = Ok cl
      /\ (exists v0, cl !! 0%nat = Some v0 /\ is_nan v0 = true)
      /\ make_gaussian_realisation (Env := ref_env) (nx, nx, 300, 300) (arange 5051) cl
           (Some (get_bl (Env := ref_env) 300 (arange 5051) 1 (nx, nx, 300, 300)))
           (np_random_seed (Env := ref_env) 40) = (g, s1)
      /\ create_ksz_map (lib := ref_numpy) (env := ref_env) 300 40 0%Z
         = mkOut (Ok (constant_map 10 (40 * 1e-6))) s1 [EvGaussian cl true g]
      /\ Z.of_nat (length (concat g)) = (nx * nx)%Z
      /\ forall i k : Z,
           (0 <= i < nx)%Z -> (0 <= k < nx)%Z ->
           exists v, concat g !! Z.to_nat (i * nx + k) = Some v
                     /\ getitem2 (constant_map 10 (40 * 1e-6)) i k = Ok (v * 1e-6).
Proof.
  assert (H : result (create_ksz_map (lib := ref_numpy) (env := ref_env) 300 40 0%Z)
              = Ok (constant_map 10 (40 * 1e-6))) by (vm_compute; reflexivity).
  split; [exact H |].
  exact (ksz_map_pixels (lib := ref_numpy) (env := ref_env) 300 40 0%Z _ H).
Defined.

(** The tSZ map at 2000 arcmin per pixel: one pixel. *)
Lemma tsz_map_pixels_witness :
  exists tsz_map nx cl g s1,
    result (create_tsz_map (lib := ref_numpy) (env := ref_env) 2000 40 0%Z) = Ok tsz_map
    /\ box_pixels 3000 2000 = Ok nx
    /\ flat_cl (lib := ref_numpy) 3.42e-12 = Ok cl
    /\ create_tsz_map (lib := ref_numpy) (env := ref_env) 2000 40 0%Z
       = mkOut (Ok tsz_map) s1 [EvGaussian cl true g].
Proof.
  assert (B : box_pixels 3000 2000 = Ok 1%Z) by (vm_compute; reflexivity).
  destruct (create_tsz_map_total (lib := ref_numpy) (env := ref_env) 2000 40 0%Z 1
              ref_env_gaussian B ltac:(lia)) as [tsz_map H].
  destruct (tsz_map_pixels (lib := ref_numpy) (env := ref_env) 2000 40 0%Z tsz_map H)
    as (nx & cl & g & s1 & H1 & _ & H3 & _ & H5 & _).
  exists tsz_map, nx, cl, g, s1. auto.
Defined.
End KszPixelsRuns.

(* ================================================================== *)
(** * The neighbourhood of a pixel and the domain of a row *)
(* ================================================================== *)

Section Window.
Context {lib : Numpy}.
Local Open Scope Z_scope.

Lemma slice_bound_clamp (n : nat) (i : Z) :
  0 <= i -> slice_bound n i = Z.to_nat (Z.min i (Z.of_nat n)).
Proof.
  intros H. unfold slice_bound. destruct (i <? 0) eqn:E; lia.
Qed.

Lemma np_slice_length {X : Type} (l : list X) (lo hi : Z) :
  0 <= lo <= hi -> lo <= Z.of_nat (length l) ->
  length (np_slice l lo hi) = Z.to_nat (Z.min hi (Z.of_nat (length l)) - lo).
Proof.
  intros H1 H2. unfold np_slice.
  rewrite !slice_bound_clamp by lia.
  rewrite length_take, length_drop. lia.
Qed.

Lemma np_slice_lookup {X : Type} (l : list X) (lo hi : Z) (j : nat) :
  0 <= lo <= hi -> lo <= Z.of_nat (length l) ->
  (j < length (np_slice l lo hi))%nat ->
  np_slice l lo hi !! j = l !! (Z.to_nat lo + j)%nat.
Proof.
  intros H1 H2 Hj. rewrite np_slice_length in Hj by lia.
  unfold np_slice. rewrite !slice_bound_clamp by lia.
  rewrite lookup_take.
  destruct (decide (j < Z.to_nat (Z.min hi (Z.of_nat (length l)))
                        - Z.to_nat (Z.min lo (Z.of_nat (length l))))%nat); [| lia].
  rewrite lookup_drop. f_equal. lia.
Qed.

Lemma square_row (n : nat) (a : Arr2) (i : nat) (row : list float) :
  square n a -> a !! i = Some row -> length row = n.
Proof.
  intros [_ H] Hi. rewrite Forall_forall in H. apply H.
  eapply list_elem_of_lookup_2. exact Hi.
Qed.

(** X5.  The neighbourhood [map[long-2:long+3, lat-2:lat+3]] of a pixel of a
    square map, for [long, lat >= 2]: the slice never raises; it stops at the
    edge of the map, so it has [min(long+3, n) - (long-2)] rows (five when
    [long + 3 <= n], down to three at the last row) of
    [min(lat+3, n) - (lat-2)] entries; its entry [(a, b)] is pixel
    [(long-2+a, lat-2+b)] of the map, and the pixel itself is its entry
    (2, 2). *)
Theorem neighbourhood_window (n : nat) (map : Arr2) (long lat : Z) :
  square n map -> 2 <= long < Z.of_nat n -> 2 <= lat < Z.of_nat n ->
  let w := slice2 map (long - 2) (long + 3) (lat - 2) (lat + 3) in
  exists v,
    getitem2 map long lat = Ok v
    /\ background_subtracted map long lat = Ok (v - np_mean w)%float
    /\ length w = Z.to_nat (Z.min (long + 3) (Z.of_nat n) - (long - 2))
    /\ Forall (fun row => length row
                          = Z.to_nat (Z.min (lat + 3) (Z.of_nat n) - (lat - 2))) w
    /\ getitem2 w 2 2 = Ok v
    /\ forall (a b : Z) (x : float),
         0 <= a -> 0 <= b -> getitem2 w a b = Ok x ->
         getitem2 map (long - 2 + a) (lat - 2 + b) = Ok x.
Proof.
  intros Hsq Hlong Hlat w.
  pose proof Hsq as [Hlen Hrows].
  destruct (getitem2_square n map long lat Hsq ltac:(lia) ltac:(lia)) as [v Hv].
  exists v. split; [exact Hv |].
  split; [unfold background_subtracted; rewrite Hv; reflexivity |].
  assert (Hwlen : length w = Z.to_nat (Z.min (long + 3) (Z.of_nat n) - (long - 2))).
  { unfold w, slice2. rewrite length_map, np_slice_length by lia. now rewrite Hlen. }
  assert (Hw : forall a row, w !! a = Some row ->
             exists r, map !! (Z.to_nat (long - 2) + a)%nat = Some r
                       /\ row = np_slice r (lat - 2) (lat + 3)).
  { intros a row Ha. unfold w, slice2 in Ha. rewrite lookup_map in Ha.
    destruct (np_slice map (long - 2) (long + 3) !! a) as [r |] eqn:Er; [| discriminate].
    injection Ha as <-. exists r. split; [| reflexivity].
    rewrite <- Er. symmetry. apply np_slice_lookup; try lia.
    now apply lookup_lt_Some in Er. }
  assert (Hentry : forall (a b : Z) (x : float),
             0 <= a -> 0 <= b -> getitem2 w a b = Ok x ->
             getitem2 map (long - 2 + a) (lat - 2 + b) = Ok x).
  { intros a b x Ha Hb Hx. unfold getitem2 in Hx.
    destruct (getitem w a) as [row |] eqn:Erow; [| discriminate].
    cbn [res_bind] in Hx.
    apply getitem_Ok_nonneg in Erow, Hx; try assumption.
    destruct (Hw _ _ Erow) as (r & Hr & ->).
    pose proof (square_row n map _ r Hsq Hr) as Hrlen.
    apply (getitem2_lookup map _ _ r x); try lia.
    - rewrite <- Hr. f_equal. lia.
    - rewrite <- Hx. rewrite np_slice_lookup; try lia.
      + f_equal. lia.
      + now apply lookup_lt_Some in Hx. }
  split; [exact Hwlen |]. split; [| split; [| exact Hentry]].
  - rewrite Forall_forall. intros row Hin.
    apply list_elem_of_lookup_1 in Hin as [a Ha].
    destruct (Hw _ _ Ha) as (r & Hr & ->).
    pose proof (square_row n map _ r Hsq Hr) as Hrlen.
    rewrite np_slice_length by lia. now rewrite Hrlen.
  - destruct (lookup_lt_is_Some_2 w 2%nat ltac:(lia)) as [row Hrow].
    destruct (Hw _ _ Hrow) as (r & Hr & ->).
    pose proof (square_row n map _ r Hsq Hr) as Hrlen.
    destruct (lookup_lt_is_Some_2 (np_slice r (lat - 2) (lat + 3)) 2%nat) as [x Hx];
      [rewrite np_slice_length by lia; lia |].
    assert (Hg : getitem2 w 2 2 = Ok x)
      by (apply (getitem2_lookup w 2 2 (np_slice r (lat - 2) (lat + 3)) x);
          (lia || assumption)).
    rewrite Hg. f_equal.
    apply Hentry in Hg; try lia.
    replace (long - 2 + 2) with long in Hg by lia.
    replace (lat - 2 + 2) with lat in Hg by lia.
    congruence.
Qed.
End Window.

Section WindowRuns.
Local Open Scope float_scope.

(** The last row and column of a map of 6 by 6 pixels. *)
Lemma neighbourhood_window_witness :
  square 6 (constant_map 6 0.5)
  /\ length (slice2 (constant_map 6 0.5) 3 8 3 8) = 3%nat
  /\ exists v, getitem2 (slice2 (constant_map 6 0.5) 3 8 3 8) 2 2 = Ok v.
Proof.
  assert (H : square 6 (constant_map 6 0.5)).
  { split; [reflexivity |]. repeat constructor. }
  split; [exact H |].
  destruct (neighbourhood_window (lib := ref_numpy) 6 (constant_map 6 0.5) 5 5 H
              ltac:(lia) ltac:(lia)) as (v & _ & _ & Hlen & _ & Hc & _).
  split; [exact Hlen | exists v; exact Hc].
Defined.
End WindowRuns.

Section RowDomain.
Context {lib : Numpy}.
Local Open Scope Z_scope.

Lemma getitem2_outside (n : nat) (a : Arr2) (i k : Z) :
  square n a -> 0 <= i -> 0 <= k -> ~ (i < Z.of_nat n /\ k < Z.of_nat n) ->
  getitem2 a i k = Raise IndexError.
Proof.
  intros Hsq Hi Hk Hout. pose proof Hsq as [Hlen _]. unfold getitem2.
  destruct (Z_lt_dec i (Z.of_nat n)) as [Hin | Hge].
  - destruct (lookup_lt_is_Some_2 a (Z.to_nat i) ltac:(lia)) as [row Hrow].
    rewrite (getitem_lookup a i row Hi Hrow). cbn [res_bind].
    apply getitem_past_end. rewrite (square_row n a _ row Hsq Hrow). lia.
  - rewrite getitem_past_end by lia. reflexivity.
Qed.

(** X6.  The row of a realization, on square maps of [n] pixels a side and for
    coordinates that are not negative: it is computed exactly when both
    coordinates are below [n] and [create_cmb_map] returned an estimate of
    index [i]; in every other case the exception is [IndexError]. *)
Theorem parameter_row_domain (n : nat) amp_cmb (ksz_map tsz_map : Arr2) (i : nat)
    (sides_long sides_lat long lat : Z) :
  square n ksz_map -> square n tsz_map -> 0 <= long -> 0 <= lat ->
  (long < Z.of_nat n /\ lat < Z.of_nat n /\ (i < length amp_cmb)%nat ->
   exists row,
     parameter_row amp_cmb ksz_map tsz_map i sides_long sides_lat long lat = Ok row)
  /\ (~ (long < Z.of_nat n /\ lat < Z.of_nat n /\ (i < length amp_cmb)%nat) ->
      parameter_row amp_cmb ksz_map tsz_map i sides_long sides_lat long lat
      = Raise IndexError).
Proof.
  intros Hk Ht Hlong Hlat. unfold parameter_row, background_subtracted. split.
  - intros (H1 & H2 & H3).
    destruct (getitem2_square n ksz_map long lat Hk ltac:(lia) ltac:(lia)) as [vk ->].
    destruct (getitem2_square n tsz_map long lat Ht ltac:(lia) ltac:(lia)) as [vt ->].
    destruct (lookup_lt_is_Some_2 amp_cmb i H3) as [a Ha].
    cbn [res_bind]. rewrite (getitem_nat amp_cmb i a Ha). cbn [res_bind]. eauto.
  - intros Hout.
    destruct (Z_lt_dec long (Z.of_nat n)) as [H1 |];
      [| rewrite (getitem2_outside n ksz_map) by (assumption || lia); reflexivity].
    destruct (Z_lt_dec lat (Z.of_nat n)) as [H2 |];
      [| rewrite (getitem2_outside n ksz_map) by (assumption || lia); reflexivity].
    destruct (getitem2_square n ksz_map long lat Hk ltac:(lia) ltac:(lia)) as [vk ->].
    destruct (getitem2_square n tsz_map long lat Ht ltac:(lia) ltac:(lia)) as [vt ->].
    cbn [res_bind]. rewrite getitem_past_end by lia. reflexivity.
Qed.
End RowDomain.

Section RowDomainRuns.
Local Open Scope float_scope.

(** Maps of 750 pixels a side (4.0 arcmin per pixel) and the draw
    [(997, 2)]. *)
Lemma parameter_row_domain_witness :
  square 750 (constant_map 750 0.5)
  /\ parameter_row (lib := ref_numpy) [1; 2] (constant_map 750 0.5)
       (constant_map 750 0.5) 0 3 4 997 2
     = Raise IndexError.
Proof.
  assert (H : square 750 (constant_map 750 0.5)).
  { unfold square, constant_map. rewrite length_replicate. split; [reflexivity |].
    apply Forall_replicate. now rewrite length_replicate. }
  split; [exact H |].
  apply (proj2 (parameter_row_domain (lib := ref_numpy) 750 [1; 2] _ _ 0 3 4 997 2
                  H H ltac:(lia) ltac:(lia))).
  lia.
Defined.
End RowDomainRuns.

(* ================================================================== *)
(** * Inpainted maps without a pixel (33, 33); resolutions that are safe *)
(* ================================================================== *)

Section Coarse.
Context {lib : Numpy} {env : Env}.
Local Open Scope float_scope.





Lemma background_subtracted_error (map : Arr2) (long lat : Z) (e : exn) :
  background_subtracted map long lat = Raise e -> e = IndexError.
Proof.
  unfold background_subtracted, getitem2, getitem, np_index.
  repeat match goal with
         | |- context [if ?b then _ else _] => destruct b
         | |- context [match ?l !! ?n with _ => _ end] => destruct (l !! n)
         | |- _ => cbn [res_bind]
         end; congruence.
Qed.



End Coarse.

Section CoarseRuns.
Local Open Scope float_scope.



End CoarseRuns.

Section SafeResolutions.
Context {lib : Numpy} {env : Env}.
Local Open Scope float_scope.


Lemma py_int_small (z : Z) :
  (0 <= z < 160)%Z -> py_int (float_of_dec z 0) = Ok z.
Proof.
  intros Hz.
  assert (H : forallb (fun n => match py_int (float_of_dec (Z.of_nat n) 0) with
                                | Ok z => (z =? Z.of_nat n)%Z
                                | Raise _ => false
                                end) (seq 0 160) = true)
    by (vm_compute; reflexivity).
  rewrite forallb_forall in H.
  specialize (H (Z.to_nat z) ltac:(apply in_seq; lia)).
  rewrite Z2Nat.id in H by lia.
  destruct (py_int (float_of_dec z 0)) as [z' |]; [| discriminate].
  apply Z.eqb_eq in H. now subst.
Qed.
End SafeResolutions.

Section SafeResolutionsRuns.
Local Open Scope float_scope.

End SafeResolutionsRuns.

(* ================================================================== *)
(** * The draws of the realizations *)
(* ================================================================== *)

Section Draws.
Context {lib : Numpy} {env : Env}.
Local Open Scope float_scope.

Lemma realization_draws amp_cmb ksz_map tsz_map (i : nat) params (s : RNG)
    sl st long lat s' :
  draws s = ((sl, st, long, lat), s') ->
  realization amp_cmb ksz_map tsz_map i params s
  = mkOut (let? row := parameter_row amp_cmb ksz_map tsz_map i sl st long lat in
           Ok (params ++ [row])) s' [].
Proof.
  unfold draws, realization.
  destruct (np_random_randint 0 160 s) as [a s1] eqn:E1.
  destruct (np_random_randint 0 160 s1) as [b s2] eqn:E2.
  destruct (np_random_randint 2 998 s2) as [c0 s3] eqn:E3.
  destruct (np_random_randint 2 998 s3) as [d s4] eqn:E4.
  intros H. injection H as <- <- <- <- <-.
  eapply bind_ok; [exact (returns_randint _ _ _ _ _ E1) | | reflexivity].
  eapply bind_ok; [exact (returns_randint _ _ _ _ _ E2) | | reflexivity].
  eapply bind_ok; [exact (returns_randint _ _ _ _ _ E3) | | reflexivity].
  eapply bind_ok; [exact (returns_randint _ _ _ _ _ E4) | | reflexivity].
  unfold bind, lift, ret. cbn [result rng_after events].
  destruct (parameter_row amp_cmb ksz_map tsz_map i a b c0 d); reflexivity.
Qed.

Lemma draws_bounds (s : RNG) sl st long lat s' :
  randint_in_range env -> draws s = ((sl, st, long, lat), s') ->
  (0 <= sl < 160)%Z /\ (0 <= st < 160)%Z /\ (2 <= long < 998)%Z /\ (2 <= lat < 998)%Z.
Proof.
  intros Hrand. unfold draws.
  destruct (np_random_randint 0 160 s) as [a s1] eqn:E1.
  destruct (np_random_randint 0 160 s1) as [b s2] eqn:E2.
  destruct (np_random_randint 2 998 s2) as [c0 s3] eqn:E3.
  destruct (np_random_randint 2 998 s3) as [d s4] eqn:E4.
  intros H. injection H as <- <- <- <- <-.
  apply (randint_bounds _ _ _ _ _ Hrand) in E1, E2, E3, E4; lia.
Qed.

Lemma getitem_error {X : Type} (l : list X) (i : Z) (e : exn) :
  getitem l i = Raise e -> e = IndexError.
Proof.
  unfold getitem, np_index.
  repeat match goal with
         | |- context [if ?b then _ else _] => destruct b
         | |- context [match ?l !! ?n with _ => _ end] => destruct (l !! n)
         | |- _ => cbn [res_bind]
         end; congruence.
Qed.

Lemma parameter_row_error amp_cmb ksz_map tsz_map (i : nat) sl st long lat (e : exn) :
  parameter_row amp_cmb ksz_map tsz_map i sl st long lat = Raise e -> e = IndexError.
Proof.
  unfold parameter_row.
  destruct (background_subtracted ksz_map long lat) as [k | e1] eqn:Ek; cbn [res_bind];
    [| intros H; injection H as <-; exact (background_subtracted_error _ _ _ _ Ek)].
  destruct (background_subtracted tsz_map long lat) as [t | e1] eqn:Et; cbn [res_bind];
    [| intros H; injection H as <-; exact (background_subtracted_error _ _ _ _ Et)].
  destruct (getitem amp_cmb (Z.of_nat i)) as [a | e1] eqn:Ea; cbn [res_bind];
    [discriminate |].
  intros H; injection H as <-. exact (getitem_error _ _ _ Ea).
Qed.

Lemma parameter_row_outside (n : nat) amp_cmb ksz_map tsz_map (i : nat) sl st long lat :
  square n ksz_map -> (0 <= long)%Z -> (0 <= lat)%Z ->
  ~ (long < Z.of_nat n /\ lat < Z.of_nat n)%Z ->
  parameter_row amp_cmb ksz_map tsz_map i sl st long lat = Raise IndexError.
Proof.
  intros Hsq Hlong Hlat Hout. unfold parameter_row, background_subtracted.
  now rewrite (getitem2_outside n ksz_map long lat Hsq Hlong Hlat Hout).
Qed.

(** A draw past the end of the kSZ map, in any realization of the loop, ends
    the loop with [IndexError]. *)
Lemma realizations_out_of_bounds (n : nat) amp_cmb ksz_map tsz_map (m k : nat)
    params (s : RNG) (j : nat) sl st long lat s' :
  square n ksz_map -> (j < m)%nat ->
  draws (draw_state s j) = ((sl, st, long, lat), s') ->
  (0 <= long)%Z -> (0 <= lat)%Z -> ~ (long < Z.of_nat n /\ lat < Z.of_nat n)%Z ->
  result (m_fold (realization amp_cmb ksz_map tsz_map) (seq k m) params s)
  = Raise IndexError.
Proof.
  intros Hsq. revert k params s j.
  induction m as [| m IH]; intros k params s j Hj Hd Hlong Hlat Hout; [lia |].
  cbn [seq m_fold]. rewrite result_bind.
  destruct (draws s) as [[[[a b] c0] d] s1] eqn:E.
  rewrite (realization_draws _ _ _ k params s a b c0 d s1 E). cbn [result rng_after].
  destruct (parameter_row amp_cmb ksz_map tsz_map k a b c0 d) as [row | e] eqn:Er;
    cbn [res_bind].
  - destruct j as [| j]; cbn [draw_state] in Hd.
    + rewrite E in Hd. injection Hd as -> -> -> -> ->.
      rewrite (parameter_row_outside n) in Er by assumption. discriminate.
    + rewrite E in Hd. cbn [snd] in Hd.
      apply (IH (S k) _ s1 j); (assumption || lia).
  - now rewrite (parameter_row_error _ _ _ _ _ _ _ _ _ Er).
Qed.

(** The rows of the realizations that return, by the draws they come
    from. *)
Lemma realizations_draws amp_cmb ksz_map tsz_map (m k : nat) params (s : RNG) params' :
  result (m_fold (realization amp_cmb ksz_map tsz_map) (seq k m) params s) = Ok params' ->
  exists rows,
    params' = params ++ rows /\ length rows = m
    /\ forall j row sl st long lat s',
         rows !! j = Some row ->
         draws (draw_state s j) = ((sl, st, long, lat), s') ->
         parameter_row amp_cmb ksz_map tsz_map (k + j) sl st long lat = Ok row.
Proof.
  revert k params s. induction m as [| m IH]; intros k params s H; cbn [seq m_fold] in H.
  - cbn [ret result] in H. injection H as <-. exists [].
    rewrite app_nil_r. repeat split; auto. intros j row ? ? ? ? ? Hj. discriminate Hj.
  - rewrite result_bind in H.
    destruct (draws s) as [[[[a b] c0] d] s1] eqn:E.
    rewrite (realization_draws _ _ _ k params s a b c0 d s1 E) in H.
    cbn [result rng_after] in H.
    destruct (parameter_row amp_cmb ksz_map tsz_map k a b c0 d) as [row | e] eqn:Er;
      cbn [res_bind] in H; [| discriminate].
    apply IH in H as (rows & -> & Hlen & Hrows).
    exists (row :: rows). rewrite <- app_assoc. repeat split; [cbn; lia |].
    intros [| j] row' sl st long lat s' Hj Hd; cbn [draw_state] in Hd.
    + cbn in Hj. injection Hj as <-. rewrite E in Hd. injection Hd as <- <- <- <- <-.
      now rewrite Nat.add_0_r.
    + cbn in Hj. rewrite E in Hd. cbn [snd] in Hd.
      replace (k + S j)%nat with (S k + j)%nat by lia. now apply (Hrows j row' sl st long lat s').
Qed.

(** [create_parameter_file], once the three maps are built, is the loop of
    the realizations, started in the state [create_tsz_map] leaves. *)
Lemma create_parameter_file_loop res (R : nat) (s : RNG) amp_cmb ksz_map tsz_map :
  result (create_cmb_map res R 40 s) = Ok amp_cmb ->
  result (create_ksz_map res 40 s) = Ok ksz_map ->
  result (create_tsz_map res 40 s) = Ok tsz_map ->
  result (create_parameter_file res R s)
  = match result (m_fold (realization amp_cmb ksz_map tsz_map) (seq 0 R)
                     [[0; 0; 0; 0; 0]] (rng_after (create_tsz_map res 40 s))) with
    | Ok params => Ok (drop 1 params)
    | Raise e => Raise e
    end.
Proof.
  intros Hcmb Hksz Htsz. unfold create_parameter_file.
  rewrite result_bind, Hcmb.
  rewrite result_bind, (create_ksz_map_any_state res 40 _ s), Hksz.
  rewrite result_bind, (create_tsz_map_any_state res 40 _ s), Htsz.
  rewrite result_bind. reflexivity.
Qed.

(** C10.  The map coordinates of every realization are draws of
    [np.random.randint(low=2, high=998)], whatever the resolution: they lie
    in [[2, 998)] and [realization] reads both maps at them, while the kSZ
    and tSZ maps have [nx = int(3000. / angular_resolution)] pixels a side.
    So a draw with [long >= nx] or [lat >= nx], in any of the [R]
    realizations, reads [ksz_map[long, lat]] past the end of the map and
    [create_parameter_file] raises [IndexError].  For every resolution with
    [nx <= 997] there are such draws in [[2, 998)]; for [nx >= 998] every
    draw is a pixel of both maps; and [nx] is 1000 at 3.0 arcmin, 750 at
    4.0. *)
Theorem map_coordinates_ignore_map_size res (R : nat) (s : RNG) (nx : Z)
    amp_cmb (ksz_map tsz_map : Arr2) :
  randint_in_range env ->
  box_pixels 3000 res = Ok nx ->
  result (create_cmb_map res R 40 s) = Ok amp_cmb ->
  result (create_ksz_map res 40 s) = Ok ksz_map ->
  result (create_tsz_map res 40 s) = Ok tsz_map ->
  square (Z.to_nat nx) ksz_map /\ square (Z.to_nat nx) tsz_map
  /\ (forall (j : nat) sides_long sides_lat long lat s',
        draws (draw_state (rng_after (create_tsz_map res 40 s)) j)
        = ((sides_long, sides_lat, long, lat), s') ->
        (2 <= long < 998)%Z /\ (2 <= lat < 998)%Z
        /\ (forall params,
              realization amp_cmb ksz_map tsz_map j params
                (draw_state (rng_after (create_tsz_map res 40 s)) j)
              = mkOut (let? row := parameter_row amp_cmb ksz_map tsz_map j
                                     sides_long sides_lat long lat in
                       Ok (params ++ [row])) s' [])
        /\ ((j < R)%nat -> (nx <= long \/ nx <= lat)%Z ->
            getitem2 ksz_map long lat = Raise IndexError
            /\ result (create_parameter_file res R s) = Raise IndexError))
  /\ ((nx <= 997)%Z ->
      some_draw_out_of_bounds ksz_map /\ some_draw_out_of_bounds tsz_map)
  /\ ((998 <= nx)%Z -> every_draw_in_bounds ksz_map /\ every_draw_in_bounds tsz_map)
  /\ box_pixels 3000 3 = Ok 1000%Z
  /\ box_pixels 3000 4 = Ok 750%Z.
Proof.
  intros Hrand Hnx Hcmb Hksz Htsz.
  assert (Hk : square (Z.to_nat nx) ksz_map).
  { destruct (create_ksz_map_run _ _ _ _ Hksz) as (nx' & Hnx' & Hsq). congruence. }
  assert (Ht : square (Z.to_nat nx) tsz_map).
  { destruct (create_tsz_map_run _ _ _ _ Htsz) as (nx' & Hnx' & Hsq). congruence. }
  split; [exact Hk |]. split; [exact Ht |].
  split; [| split; [| split; [| split; reflexivity]]].
  - intros j sl st long lat s' Hd.
    destruct (draws_bounds _ _ _ _ _ _ Hrand Hd) as (_ & _ & Hlong & Hlat).
    split; [exact Hlong |]. split; [exact Hlat |].
    split; [intros params; now apply realization_draws |].
    intros Hj Hout.
    assert (Hout' : ~ (long < Z.of_nat (Z.to_nat nx) /\ lat < Z.of_nat (Z.to_nat nx))%Z)
      by lia.
    split; [apply (getitem2_outside (Z.to_nat nx)); (assumption || lia) |].
    rewrite (create_parameter_file_loop res R s amp_cmb ksz_map tsz_map Hcmb Hksz Htsz).
    rewrite (realizations_out_of_bounds (Z.to_nat nx) amp_cmb ksz_map tsz_map R 0 _ _
               j sl st long lat s' Hk Hj Hd ltac:(lia) ltac:(lia) Hout').
    reflexivity.
  - intros Hsmall. split; now apply (small_map_out_of_bounds nx).
  - intros Hbig. split; now apply (large_map_in_bounds nx).
Qed.

(** X8.  Draws being within their bounds: the first two entries of row [i] of
    the matrix are the two catalog coordinates that realization [i] drew
    (its first two draws, in the generator state the realizations before it
    left), converted to [float64]; the conversion loses nothing, [int()] of
    each entry is the integer that was drawn. *)
Theorem catalog_coordinates_read_back res (R : nat) (s : RNG) params :
  randint_in_range env ->
  result (create_parameter_file res R s) = Ok params ->
  forall (i : nat) row sides_long sides_lat long lat s',
    params !! i = Some row ->
    draws (draw_state (rng_after (create_tsz_map res 40 s)) i)
    = ((sides_long, sides_lat, long, lat), s') ->
    (0 <= sides_long < 160)%Z /\ (0 <= sides_lat < 160)%Z
    /\ row !! 0%nat = Some (float_of_dec sides_long 0)
    /\ row !! 1%nat = Some (float_of_dec sides_lat 0)
    /\ py_int (float_of_dec sides_long 0) = Ok sides_long
    /\ py_int (float_of_dec sides_lat 0) = Ok sides_lat.
Proof.
  intros Hrand H i row sl st long lat s' Hi Hd.
  destruct (create_parameter_file_run _ _ _ _ Hrand H)
    as (amp_cmb & ksz_map & tsz_map & Hcmb & Hksz & Htsz & _ & _).
  rewrite (create_parameter_file_loop res R s amp_cmb ksz_map tsz_map Hcmb Hksz Htsz) in H.
  destruct (result (m_fold _ _ _ _)) as [params' |] eqn:E; [| discriminate].
  injection H as <-.
  apply realizations_draws in E as (rows & -> & _ & Hrows).
  cbn [app drop] in Hi. rewrite drop_0 in Hi.
  specialize (Hrows i row sl st long lat s' Hi Hd).
  apply parameter_row_inv in Hrows as (a & k & t & -> & _).
  destruct (draws_bounds _ _ _ _ _ _ Hrand Hd) as (Hsl & Hst & _ & _).
  auto 10 using py_int_small.
Qed.
End Draws.

Section DrawsRuns.
Local Open Scope float_scope.

(** On the reference collaborators the loop of the realizations starts with
    the generator at 41: seeded at 40, and one realization drawn. *)
Lemma ref_env_loop_state res (s : @RNG ref_env) tsz_map :
  result (create_tsz_map (lib := ref_numpy) (env := ref_env) res 40 s) = Ok tsz_map ->
  rng_after (create_tsz_map (lib := ref_numpy) (env := ref_env) res 40 s) = 41%Z.
Proof.
  unfold create_tsz_map, bind.
  destruct (secondary_map 3.42e-12 res 40 s) as [[[nx T] | e] s1 tr] eqn:E;
    cbn [result rng_after events lift]; [| discriminate].
  intros _.
  apply secondary_map_pixels in E as (cl & g & _ & _ & _ & _ & H5 & _).
  cbn in H5. now injection H5 as _ <-.
Qed.

(** At 4.0 arcmin per pixel the maps have 750 pixels a side; the 26th
    realization draws [(long, lat) = (757, 764)]. *)
Lemma map_coordinates_ignore_map_size_witness :
  randint_in_range ref_env
  /\ box_pixels 3000 4 = Ok 750%Z
  /\ exists amp_cmb ksz_map tsz_map,
      result (create_cmb_map (lib := ref_numpy) (env := ref_env) 4 26 40 0%Z) = Ok amp_cmb
      /\ result (create_ksz_map (lib := ref_numpy) (env := ref_env) 4 40 0%Z) = Ok ksz_map
      /\ result (create_tsz_map (lib := ref_numpy) (env := ref_env) 4 40 0%Z) = Ok tsz_map
      /\ draws (env := ref_env)
           (draw_state (rng_after (create_tsz_map (lib := ref_numpy) (env := ref_env) 4 40 0%Z))
                       25)
         = ((101, 108, 757, 764)%Z, 769%Z)
      /\ getitem2 ksz_map 757 764 = Raise IndexError
      /\ result (create_parameter_file (lib := ref_numpy) (env := ref_env) 4 26 0%Z)
         = Raise IndexError.
Proof.
  assert (H750 : box_pixels 3000 4 = Ok 750%Z) by reflexivity.
  assert (H50 : box_pixels 200 4 = Ok 50%Z) by reflexivity.
  split; [exact ref_env_randint |]. split; [exact H750 |].
  destruct (create_cmb_map_total (lib := ref_numpy) (env := ref_env) 4 26 40 0%Z 50
              ltac:(discriminate) H50 ltac:(lia)) as [amp_cmb Hcmb].
  destruct (create_ksz_map_total (lib := ref_numpy) (env := ref_env) 4 40 0%Z 750
              ref_env_gaussian H750 ltac:(lia)) as [ksz_map Hksz].
  destruct (create_tsz_map_total (lib := ref_numpy) (env := ref_env) 4 40 0%Z 750
              ref_env_gaussian H750 ltac:(lia)) as [tsz_map Htsz].
  exists amp_cmb, ksz_map, tsz_map.
  assert (Hd : draws (env := ref_env)
                 (draw_state (rng_after (create_tsz_map (lib := ref_numpy) (env := ref_env)
                                           4 40 0%Z)) 25)
               = ((101, 108, 757, 764)%Z, 769%Z)).
  { rewrite (ref_env_loop_state 4 0%Z tsz_map Htsz). reflexivity. }
  repeat (split; [assumption |]).
  exact (proj2 (proj2 (proj2
           (proj1 (proj2 (proj2
              (map_coordinates_ignore_map_size (lib := ref_numpy) (env := ref_env)
                 4 26 0%Z 750 amp_cmb ksz_map tsz_map
                 ref_env_randint H750 Hcmb Hksz Htsz)))
              25%nat 101%Z 108%Z 757%Z 764%Z 769%Z Hd)))
           ltac:(lia) ltac:(lia)).
Defined.

(** Two realizations at the default resolution: the second draws the catalog
    coordinates 69 and 76. *)
Lemma catalog_coordinates_read_back_witness :
  randint_in_range ref_env
  /\ exists params,
      result (create_parameter_file (lib := ref_numpy) (env := ref_env) 3 2 0%Z)
      = Ok params
      /\ forall row sides_long sides_lat long lat s',
           params !! 1%nat = Some row ->
           draws (env := ref_env)
             (draw_state (rng_after (create_tsz_map (lib := ref_numpy) (env := ref_env)
                                       3 40 0%Z)) 1)
           = ((sides_long, sides_lat, long, lat), s') ->
           (sides_long, sides_lat) = (69, 76)%Z
           /\ (0 <= sides_long < 160)%Z /\ (0 <= sides_lat < 160)%Z
           /\ row !! 0%nat = Some (float_of_dec sides_long 0)
           /\ row !! 1%nat = Some (float_of_dec sides_lat 0)
           /\ py_int (float_of_dec sides_long 0) = Ok sides_long
           /\ py_int (float_of_dec sides_lat 0) = Ok sides_lat.
Proof.
  split; [exact ref_env_randint |].
  destruct (create_parameter_file_total (lib := ref_numpy) (env := ref_env) 2 0%Z
              ref_env_randint ref_env_gaussian ref_env_centre ltac:(discriminate))
    as [params Hparams].
  exists params. split; [exact Hparams |].
  intros row sl st long lat s' Hrow Hd. split.
  - destruct (create_tsz_map_total (lib := ref_numpy) (env := ref_env) 3 40 0%Z 1000
                ref_env_gaussian eq_refl ltac:(lia)) as [tsz_map Htsz].
    rewrite (ref_env_loop_state 3 0%Z tsz_map Htsz) in Hd.
    cbn in Hd. now injection Hd as <- <- _ _ _.
  - exact (catalog_coordinates_read_back (lib := ref_numpy) (env := ref_env) 3 2 0%Z params
             ref_env_randint Hparams 1%nat row sl st long lat s' Hrow Hd).
Defined.
End DrawsRuns.

(* ================================================================== *)
(** * More realizations *)
(* ================================================================== *)

Section MonadLaws.
Context {env : Env}.






End MonadLaws.

Section Extend.
Context {lib : Numpy} {env : Env}.
Local Open Scope float_scope.







End Extend.

Section ExtendRuns.
Local Open Scope float_scope.

End ExtendRuns.

(* ================================================================== *)
(** * The spectrum beside the monopole *)
(* ================================================================== *)

Section Rounding.
Local Open Scope Z_scope.

Lemma shr_1_nonneg (mrs : shr_record) : 0 <= shr_m mrs -> 0 <= shr_m (shr_1 mrs).
Proof.
  destruct mrs as [m r s]. cbn [shr_m]. intros H.
  destruct m as [| p | p]; [| | lia]; cbn; [lia |].
  destruct p; cbn; lia.
Qed.

Lemma iter_pos_nonneg (p : positive) (mrs : shr_record) :
  0 <= shr_m mrs -> 0 <= shr_m (SpecFloat.iter_pos shr_1 p mrs).
Proof.
  revert mrs. induction p as [p IH | p IH |]; intros mrs H; cbn [SpecFloat.iter_pos].
  - apply IH, IH, shr_1_nonneg, H.
  - apply IH, IH, H.
  - apply shr_1_nonneg, H.
Qed.

Lemma shr_fexp_nonneg (m e : Z) (l : location) :
  0 <= m -> 0 <= shr_m (fst (shr_fexp prec emax m e l)).
Proof.
  intros H. unfold shr_fexp, shr.
  assert (H0 : 0 <= shr_m (shr_record_of_loc m l))
    by (destruct l as [| []]; exact H).
  destruct (fexp prec emax (Zdigits2 m + e) - e); cbn [fst]; try exact H0.
  now apply iter_pos_nonneg.
Qed.

Lemma round_nearest_even_nonneg (m : Z) (l : location) :
  0 <= m -> 0 <= round_nearest_even m l.
Proof.
  intros H. destruct l as [| []]; cbn; try lia.
  destruct (Z.even m); lia.
Qed.

(** Rounding a mantissa that is not negative never gives a NaN. *)
Lemma binary_round_aux_not_nan (sx : bool) (mx ex : Z) (lx : location) :
  0 <= mx -> binary_round_aux prec emax sx mx ex lx <> S754_nan.
Proof.
  intros H. unfold binary_round_aux.
  pose proof (shr_fexp_nonneg mx ex lx H) as H1.
  destruct (shr_fexp prec emax mx ex lx) as [mrs' e']. cbn [fst] in H1.
  pose proof (shr_fexp_nonneg _ e' loc_Exact
                (round_nearest_even_nonneg _ (loc_of_shr_record mrs') H1)) as H2.
  destruct (shr_fexp prec emax _ e' loc_Exact) as [mrs'' e'']. cbn [fst] in H2.
  destruct (shr_m mrs'') as [| m | m]; [discriminate | | lia].
  destruct (e'' <=? emax - prec); discriminate.
Qed.

Lemma SFdiv_core_binary_nonneg (m1 m2 : positive) (e1 e2 : Z) :
  0 <= fst (fst (SFdiv_core_binary prec emax (Zpos m1) e1 (Zpos m2) e2)).
Proof.
  unfold SFdiv_core_binary.
  set (s := _ - _ - Z.min _ _).
  set (m' := match s with Z0 => Zpos m1 | Zpos _ => Z.shiftl (Zpos m1) s | Zneg _ => 0 end).
  assert (Hm : 0 <= m').
  { unfold m'. destruct s; try lia. apply Z.shiftl_nonneg. lia. }
  pose proof (Z_div_mod m' (Zpos m2) ltac:(lia)) as H.
  destruct (Z.div_eucl m' (Zpos m2)) as [q r]. cbn [fst]. nia.
Qed.
End Rounding.

Section NotNan.
Local Open Scope float_scope.

Lemma not_nan_SF (x : float) : is_nan x = false <-> Prim2SF x <> S754_nan.
Proof.
  split.
  - intros H E. apply is_nan_SF in E. congruence.
  - intros H. destruct (is_nan x) eqn:E; [| reflexivity].
    apply SF_is_nan in E. contradiction.
Qed.

Lemma nonzero_SF (x : float) (s : bool) : (x =? 0) = false -> Prim2SF x <> S754_zero s.
Proof.
  intros H E. rewrite (SF_zero_eqb x s E) in H. discriminate.
Qed.

Lemma mul_finite_not_nan (x y : float) :
  is_finite x = true -> is_finite y = true -> is_nan (x * y) = false.
Proof.
  intros Hx Hy. apply is_finite_SF in Hx, Hy. apply not_nan_SF.
  rewrite FloatAxioms.mul_spec.
  destruct (Prim2SF x) as [sx | sx | | sx mx ex]; try contradiction;
    destruct (Prim2SF y) as [sy | sy | | sy my ey]; try contradiction;
    try discriminate.
  apply binary_round_aux_not_nan. lia.
Qed.

Lemma mul_nonzero_not_nan (x y : float) :
  is_nan x = false -> is_finite y = true -> (y =? 0) = false ->
  is_nan (x * y) = false.
Proof.
  intros Hx Hy Hy0. apply is_finite_SF in Hy. apply not_nan_SF in Hx.
  apply not_nan_SF. rewrite FloatAxioms.mul_spec.
  pose proof (nonzero_SF y) as Hz.
  destruct (Prim2SF x) as [sx | sx | | sx mx ex]; try contradiction;
    destruct (Prim2SF y) as [sy | sy | | sy my ey]; try contradiction;
    try discriminate;
    try (exfalso; now apply (Hz sy)).
  apply binary_round_aux_not_nan. lia.
Qed.

Lemma div_nonzero_not_nan (x y : float) :
  is_nan x = false -> is_finite y = true -> (y =? 0) = false ->
  is_nan (x / y) = false.
Proof.
  intros Hx Hy Hy0. apply is_finite_SF in Hy. apply not_nan_SF in Hx.
  apply not_nan_SF. rewrite FloatAxioms.div_spec.
  pose proof (nonzero_SF y) as Hz.
  destruct (Prim2SF x) as [sx | sx | | sx mx ex]; try contradiction;
    destruct (Prim2SF y) as [sy | sy | | sy my ey]; try contradiction;
    try discriminate;
    try (exfalso; now apply (Hz sy)).
  unfold SF64div, SFdiv.
  pose proof (SFdiv_core_binary_nonneg mx my ex ey) as Hq.
  destruct (SFdiv_core_binary prec emax (Zpos mx) ex (Zpos my) ey) as [[mz ez] lz].
  cbn [fst] in Hq. now apply binary_round_aux_not_nan.
Qed.
End NotNan.



Section Spectrum.
Local Open Scope float_scope.

Lemma all_from_spec (check : Z -> bool) (k : nat) (z j : Z) :
  all_from check k z = true -> (z <= j < z + Z.of_nat k)%Z -> check j = true.
Proof.
  revert z. induction k as [| k IH]; intros z H Hj; [lia |].
  cbn [all_from] in H. apply andb_prop in H as [H1 H2].
  destruct (Z.eq_dec j z) as [-> | Hne]; [exact H1 |].
  apply (IH (z + 1)%Z); [exact H2 | lia].
Qed.

Lemma wrap64_small (z : Z) : (- 2 ^ 63 <= z < 2 ^ 63)%Z -> wrap64 z = z.
Proof. intros H. unfold wrap64. rewrite Z.mod_small; lia. Qed.

(** An [int64] that is not negative converts as the processor converts it. *)
Lemma float_of_dec_uint (z : Z) :
  (0 <= z < 2 ^ 63)%Z -> float_of_dec z 0 = of_uint63 (Uint63.of_Z z).
Proof.
  intros H. unfold float_of_dec.
  replace (z * 10 ^ 0)%Z with z by (cbn; lia).
  rewrite <- (SF2Prim_Prim2SF (of_uint63 (Uint63.of_Z z))).
  rewrite FloatAxioms.of_uint63_spec, Uint63.of_Z_spec.
  rewrite Z.mod_small; [reflexivity |].
  change Uint63.wB with (2 ^ 63)%Z. lia.
Qed.

(** [l (l + 1) / 2 / pi] is a finite number that is not zero for
    [1 <= l <= 100000]; the product [l (l + 1)] does not wrap around. *)
Lemma dl_fac_finite_nonzero (l : Z) :
  (1 <= l <= 100000)%Z ->
  exists f, dl_fac [l] = [f] /\ is_finite f = true /\ (f =? 0) = false.
Proof.
  intros Hl.
  assert (H : all_from (fun n => let f := of_uint63 (Uint63.of_Z (n * (n + 1))) / 2 / np_pi in
                                 is_finite f && negb (f =? 0))
                       (Z.to_nat 100000) 1 = true)
    by (vm_compute; reflexivity).
  apply (all_from_spec _ _ _ l) in H; [| lia].
  cbn zeta in H. apply andb_prop in H as [H1 H2]. apply negb_true_iff in H2.
  unfold dl_fac. cbn [map].
  rewrite (wrap64_small (l + 1)) by lia.
  rewrite (wrap64_small (l * (l + 1))) by nia.
  rewrite float_of_dec_uint by nia.
  eexists. split; [reflexivity |]. split; assumption.
Qed.

Lemma Ok_inj {X : Type} (x y : X) : Ok x = Ok y -> x = y.
Proof. intros H. now injection H. Qed.

Lemma dl_fac_lookup (n l : nat) :
  (l < n)%nat ->
  exists f, dl_fac (arange (Z.of_nat n)) !! l = Some f /\ dl_fac [Z.of_nat l] = [f].
Proof.
  intros Hl. unfold dl_fac, arange. rewrite Nat2Z.id.
  rewrite !lookup_map.
  assert (E : seq 0 n !! l = Some l) by (apply lookup_seq; lia).
  rewrite E. cbn. eexists. split; reflexivity.
Qed.

(** X11.  Beside the monopole, the conversion gives no NaN: [TCMB ** 2.] being a
    finite number, every entry [l >= 1] of [cl_tt] is a number (or an
    infinity), for any spectrum [dl_tt] of finite values of up to 100001
    multipoles, and for the flat spectra of [create_ksz_map] and
    [create_tsz_map]; [cl_tt] has the length of [dl_tt]. *)
Theorem spectrum_nan_only_at_monopole (lib : Numpy) :
  is_finite (py_pow TCMB 2) = true ->
  (forall dl cl : list float,
      Forall (fun d => is_finite d = true) dl ->
      (Z.of_nat (length dl) <= 100001)%Z ->
      cl_of_dl dl (arange (Z.of_nat (length dl))) = Ok cl ->
      length cl = length dl
      /\ forall (l : nat) (v : float),
           (1 <= l)%nat -> cl !! l = Some v -> is_nan v = false)
  /\ (forall amp : float,
        is_finite amp = true ->
        exists cl,
          flat_cl amp = Ok cl /\ Z.of_nat (length cl) = 5051%Z
          /\ forall (l : nat) (v : float),
               (1 <= l)%nat -> cl !! l = Some v -> is_nan v = false).
Proof.
  intros Hp.
  assert (Hgen : forall dl cl : list float,
             Forall (fun d => is_finite d = true) dl ->
             (Z.of_nat (length dl) <= 100001)%Z ->
             cl_of_dl dl (arange (Z.of_nat (length dl))) = Ok cl ->
             length cl = length dl
             /\ forall (l : nat) (v : float),
                  (1 <= l)%nat -> cl !! l = Some v -> is_nan v = false).
  { intros dl cl Hdl Hlen H. unfold cl_of_dl in H.
    destruct dl as [| d rest]; [discriminate |].
    assert (Hset : setitem (d :: rest) 0 0 = Ok (0 :: rest)).
    { unfold setitem. rewrite np_index_nonneg by (cbn [length]; lia). reflexivity. }
    rewrite Hset in H. cbn [res_bind] in H. apply Ok_inj in H. subst cl.
    split.
    - rewrite length_zip_with. unfold dl_fac, arange.
      rewrite !length_map, length_seq, Nat2Z.id. cbn [length]. lia.
    - intros l v Hl Hv. rewrite lookup_zip_with in Hv.
      destruct l as [| l]; [lia |].
      change ((0 :: rest) !! S l) with (rest !! l) in Hv.
      destruct (rest !! l) as [x |] eqn:Ex; [| discriminate].
      cbn [mbind option_bind] in Hv.
      pose proof (lookup_lt_Some _ _ _ Ex) as Hlt.
      destruct (dl_fac_lookup (S (length rest)) (S l) ltac:(lia)) as (f & Hf & Hf1).
      change (length (d :: rest)) with (S (length rest)) in Hv.
      rewrite Hf in Hv.
      cbn [mbind option_bind] in Hv. injection Hv as <-.
      destruct (dl_fac_finite_nonzero (Z.of_nat (S l)) ltac:(cbn [length] in Hlen; lia))
        as (f' & Hf' & Hfin & Hnz).
      rewrite Hf1 in Hf'. injection Hf' as <-.
      assert (Hx : is_finite x = true).
      { rewrite Forall_forall in Hdl. apply Hdl. right.
        eapply list_elem_of_lookup_2. exact Ex. }
      apply div_nonzero_not_nan; [| exact Hfin | exact Hnz].
      apply mul_nonzero_not_nan; [| reflexivity | reflexivity].
      now apply mul_finite_not_nan. }
  split; [exact Hgen |].
  intros amp Hamp.
  destruct (flat_cl_monopole lib amp) as (v0 & rest & Hcl & _).
  exists (v0 :: rest). split; [exact Hcl |].
  unfold flat_cl in Hcl.
  assert (E : 5051%Z = Z.of_nat (length (replicate (Z.to_nat 5051) amp)))
    by (rewrite length_replicate; lia).
  rewrite E in Hcl at 2.
  apply Hgen in Hcl.
  - rewrite length_replicate in Hcl. destruct Hcl as [Hl Hcl].
    split; [rewrite Hl; lia | exact Hcl].
  - apply Forall_replicate. exact Hamp.
  - rewrite length_replicate. lia.
Qed.
End Spectrum.

Section SpectrumRuns.
Local Open Scope float_scope.

(** The flat spectrum of the kSZ map, with the reference libm. *)
Lemma spectrum_nan_only_at_monopole_witness :
  is_finite (py_pow (Num := @F64 ref_numpy) (TCMB (N := @F64 ref_numpy)) 2) = true
  /\ exists cl,
      flat_cl (lib := ref_numpy) 3e-12 = Ok cl /\ Z.of_nat (length cl) = 5051%Z
      /\ forall (l : nat) (v : float),
           (1 <= l)%nat -> cl !! l = Some v -> is_nan v = false.
Proof.
  assert (H : is_finite (py_pow (Num := @F64 ref_numpy) (TCMB (N := @F64 ref_numpy)) 2) = true)
    by (vm_compute; reflexivity).
  split; [exact H |].
  exact (proj2 (spectrum_nan_only_at_monopole ref_numpy H) 3e-12 eq_refl).
Defined.
End SpectrumRuns.

(* ================================================================== *)
(** * The wrapper of SZpack *)
(* ================================================================== *)

Section SZpackWrapper.
Context {ext : SiftExt}.

(** The arguments left out at construction reach the native routine as 0,
    [temperature] as [TeSZ] and [peculiar_velocity] as [betac_para]. *)
Lemma sz_combo_means_forwards (tau temperature peculiar_velocity : float) (xo : Xo) :
  SZpack.sz_combo_means
    (SZpack.init tau temperature peculiar_velocity None None None None) xo
  = szpack_combo_means xo tau temperature peculiar_velocity 0 0 0 0.
Proof. reflexivity. Qed.
End SZpackWrapper.
